(** * Admin Helper: a shallow embedding of the content script

    The script wraps XPath snapshots in [QueryResult], renders markup with a
    tiny [Template] engine, and runs two hooks ([Highlight], [Summarize]) over
    the admin rows that [AdminHelper] finds.  Strings are lists of characters
    (code units below 256), numbers are IEEE 754 binary64 values, objects used
    as maps are lists of their own properties in creation order, read through
    [Object.prototype], and a call ends in a completion: a value or an
    exception, beside the state it leaves. *)

From Stdlib Require Import List Ascii Bool Arith ZArith Lia Permutation.
From Stdlib Require Import SpecFloat.
Import ListNotations.

Set Implicit Arguments.

(** ** Strings *)

Definition str := list ascii.

Inductive lit := lit_nil | lit_cons (c : ascii) (r : lit).

Fixpoint lit_of_bytes (l : list Byte.byte) : lit :=
  match l with
  | [] => lit_nil
  | b :: r => lit_cons (ascii_of_byte b) (lit_of_bytes r)
  end.

Fixpoint bytes_of_lit (l : lit) : list Byte.byte :=
  match l with
  | lit_nil => []
  | lit_cons c r => byte_of_ascii c :: bytes_of_lit r
  end.

Declare Scope str_scope.
Delimit Scope str_scope with str.
#[warning="-via-type-remapping,-via-type-mismatch"]
String Notation str lit_of_bytes bytes_of_lit
  (via lit mapping [[nil] => lit_nil, [cons] => lit_cons]) : str_scope.
Open Scope str_scope.

(** The double quote, which a literal cannot hold. *)
Definition dquote : ascii := "034"%char.

(** [starts_with p s]: [p] is a prefix of [s]. *)
Fixpoint starts_with (p s : str) : bool :=
  match p, s with
  | [], _ => true
  | _ :: _, [] => false
  | a :: p', b :: s' => Ascii.eqb a b && starts_with p' s'
  end.

(** Number of positions of [s] at which [p] occurs. *)
Fixpoint occurrences (p s : str) : nat :=
  match s with
  | [] => 0
  | _ :: r => (if starts_with p s then 1 else 0) + occurrences p r
  end.

Definition str_eqb (a b : str) : bool :=
  (length a =? length b)%nat && starts_with a b.

Definition is_digit (c : ascii) : bool :=
  let n := nat_of_ascii c in ((48 <=? n) && (n <=? 57))%nat.

(** ** Exceptions and completions *)

Inductive exn := TypeError | SyntaxError | RangeError.

(** How a call ends: it returns a value or throws.  A call whose course
    depends on a regular expression outside the syntax that [RegExp] below
    embeds is [Unmodelled]: the embedding says nothing about how it ends. *)
Inductive completion (A : Type) :=
| Normal (a : A)
| Throw (e : exn)
| Unmodelled.
Arguments Normal {A} a.
Arguments Throw {A} e.
Arguments Unmodelled {A}.

Definition bind {A B} (r : completion A) (f : A -> completion B) : completion B :=
  match r with
  | Normal a => f a
  | Throw e => Throw e
  | Unmodelled => Unmodelled
  end.

Notation "x <- c ;; k" := (bind c (fun x => k))
  (at level 61, c at next level, right associativity).

(** A call that acts on a state ends in a completion and the state it
    leaves; [and_then] goes on from that state when the call returned. *)
Definition and_then {St} (r : completion unit * St) (k : St -> completion unit * St)
  : completion unit * St :=
  match r with
  | (Normal _, st) => k st
  | stop => stop
  end.

(** ** String.prototype.replace with a global pattern

    [GetSubstitution] expands the replacement text of one match.  The
    patterns built by the script have no capture groups, so [$n] and [$<]
    stay literal; [$$], [$&], [$`] and [$'] are expanded. *)
Fixpoint GetSubstitution (matched before after replacement : str) : str :=
  match replacement with
  | [] => []
  | c :: r =>
      if Ascii.eqb c "$" then
        match r with
        | x :: r' =>
            if Ascii.eqb x "$" then "$"%char :: GetSubstitution matched before after r'
            else if Ascii.eqb x "&" then matched ++ GetSubstitution matched before after r'
            else if Ascii.eqb x "`" then before ++ GetSubstitution matched before after r'
            else if Ascii.eqb x "'" then after ++ GetSubstitution matched before after r'
            else c :: GetSubstitution matched before after r
        | [] => [c]
        end
      else c :: GetSubstitution matched before after r
  end.

(** One left-to-right scan of [s], which sits between [before] and [after]
    in the string being rewritten, for a pattern that matches the text [pat]
    and nothing else.  [skip] counts the characters of the current match that
    are still to be consumed. *)
Fixpoint replace_scan (pat repl before s after : str) (skip : nat) : str :=
  match s with
  | [] => []
  | c :: r =>
      match skip with
      | S k => replace_scan pat repl (before ++ [c]) r after k
      | O =>
          if starts_with pat s
          then GetSubstitution pat before (skipn (length pat) s ++ after) repl
                 ++ replace_scan pat repl (before ++ [c]) r after (length pat - 1)
          else c :: replace_scan pat repl (before ++ [c]) r after 0
      end
  end.

(** [s.replace(/c/g, repl)] for the one-character patterns of [_escape]. *)
Definition replace_all (pat repl s : str) : str :=
  replace_scan pat repl [] s [] 0.

(** ** RegExp

    The patterns [new RegExp(source, 'g')] is called with are built from
    object keys.  Embedded is the syntax without backtracking: alternatives
    separated by [|], made of pattern characters and the dot.  In a pattern
    without the [u] flag a closing brace or bracket is a pattern character,
    and so is an opening brace unless it starts a braced quantifier
    ([{2}], [{2,}], [{2,5}]), which is a SyntaxError where there is nothing
    to repeat.  A source that uses any other syntax (escapes, assertions,
    quantifiers, groups, classes) is outside the embedding. *)
Module RegExp.

Inductive atom :=
| Char (c : ascii)
| Dot.

Definition alternative := list atom.

(** A disjunction: its alternatives, in order. *)
Definition t := list alternative.

Fixpoint skip_digits (s : str) : str :=
  match s with
  | c :: r => if is_digit c then skip_digits r else s
  | [] => []
  end.

(** [s] starts with [{digits}], [{digits,}] or [{digits,digits}]. *)
Definition braced_quantifier (s : str) : bool :=
  match s with
  | "{"%char :: c :: r =>
      is_digit c
      && match skip_digits r with
         | "}"%char :: _ => true
         | ","%char :: r' =>
             match skip_digits r' with
             | "}"%char :: _ => true
             | _ => false
             end
         | _ => false
         end
  | _ => false
  end.

(** Characters whose syntax is not embedded. *)
Definition other_syntax (c : ascii) : bool :=
  existsb (Ascii.eqb c) "\^$*+?()[".

Definition add_atom (a : atom) (d : t) : t :=
  match d with
  | [] => [[a]]
  | alt :: rest => (a :: alt) :: rest
  end.

(** The pattern of a source text, read from left to right; [atom_before]
    says whether the text read so far ends in an atom that a quantifier
    could repeat. *)
Fixpoint parse (source : str) (atom_before : bool) : completion t :=
  match source with
  | [] => Normal [[]]
  | c :: r =>
      if Ascii.eqb c "|" then d <- parse r false ;; Normal ([] :: d)
      else if braced_quantifier source
      then (if atom_before then Unmodelled else Throw SyntaxError)
      else if other_syntax c then Unmodelled
      else d <- parse r true ;; Normal (add_atom (if Ascii.eqb c "." then Dot else Char c) d)
  end.

(** [new RegExp(source, 'g')]. *)
Definition new (source : str) : completion t := parse source false.

(** The dot matches all but line terminators. *)
Definition line_terminator (c : ascii) : bool :=
  Ascii.eqb c "010" || Ascii.eqb c "013".

Definition atom_matches (a : atom) (c : ascii) : bool :=
  match a with
  | Char x => Ascii.eqb x c
  | Dot => negb (line_terminator c)
  end.

(** The alternative matches at the head of [s]. *)
Fixpoint alternative_matches (alt : alternative) (s : str) : bool :=
  match alt, s with
  | [], _ => true
  | _ :: _, [] => false
  | a :: alt', c :: s' => atom_matches a c && alternative_matches alt' s'
  end.

(** The match at the head of [s]: the length of the first alternative
    that matches there. *)
Fixpoint match_at (d : t) (s : str) : option nat :=
  match d with
  | [] => None
  | alt :: rest =>
      if alternative_matches alt s then Some (length alt) else match_at rest s
  end.

(** One left-to-right scan of [s], the text after [before], for a global
    pattern: every match is replaced, the search goes on behind the match,
    and behind the next character when the match is empty.  [skip] counts the
    characters of the current match that are still to be consumed. *)
Fixpoint scan (d : t) (repl before s : str) (skip : nat) : str :=
  match s with
  | [] =>
      match skip, match_at d [] with
      | O, Some _ => GetSubstitution [] before [] repl
      | _, _ => []
      end
  | c :: r =>
      match skip with
      | S k => scan d repl (before ++ [c]) r k
      | O =>
          match match_at d s with
          | Some (S k) =>
              GetSubstitution (firstn (S k) s) before (skipn (S k) s) repl
                ++ scan d repl (before ++ [c]) r k
          | Some O =>
              GetSubstitution [] before s repl
                ++ c :: scan d repl (before ++ [c]) r 0
          | None => c :: scan d repl (before ++ [c]) r 0
          end
      end
  end.

(** [s.replace(d, repl)] for a global pattern [d] and a replacement text. *)
Definition replace (d : t) (repl s : str) : str :=
  scan d repl [] s 0.

End RegExp.

(** ** Objects used as maps

    Own enumerable properties in creation order.  An object is such a list
    with each name once ([distinct_keys]); [set] and [write] keep it so.
    [for_in] lists the properties the way a [for (key in o)] loop visits
    them: array-index names first, in ascending numeric order, then the other
    names in creation order. *)
Definition object (V : Type) := list (str * V).

(** Every property name is held once. *)
Definition distinct_keys {V} (o : object V) : Prop := NoDup (List.map fst o).

Fixpoint get {V} (o : object V) (k : str) : option V :=
  match o with
  | [] => None
  | (k', v) :: r => if str_eqb k k' then Some v else get r k
  end.

Fixpoint set {V} (o : object V) (k : str) (v : V) : object V :=
  match o with
  | [] => [(k, v)]
  | (k', v') :: r => if str_eqb k k' then (k', v) :: r else (k', v') :: set r k v
  end.

Definition digit_value (c : ascii) : Z := Z.of_nat (nat_of_ascii c) - 48.

Fixpoint digits_value (acc : Z) (s : str) : Z :=
  match s with
  | [] => acc
  | c :: r => digits_value (10 * acc + digit_value c) r
  end.

(** A canonical numeric string below 2^32 - 1. *)
Definition array_index (k : str) : option Z :=
  match k with
  | [] => None
  | c :: r =>
      if forallb is_digit k && (negb (Ascii.eqb c "0") || match r with [] => true | _ => false end)
      then let n := digits_value 0 k in
           if (n <? 4294967295)%Z then Some n else None
      else None
  end.

Fixpoint insert_index {V} (n : Z) (e : str * V) (l : list (Z * (str * V)))
  : list (Z * (str * V)) :=
  match l with
  | [] => [(n, e)]
  | (m, e') :: r => if (n <? m)%Z then (n, e) :: l else (m, e') :: insert_index n e r
  end.

Fixpoint index_entries {V} (o : object V) : list (Z * (str * V)) :=
  match o with
  | [] => []
  | (k, v) :: r =>
      match array_index k with
      | Some n => insert_index n (k, v) (index_entries r)
      | None => index_entries r
      end
  end.

Definition for_in {V} (o : object V) : list (str * V) :=
  map snd (index_entries o)
    ++ filter (fun e => match array_index (fst e) with Some _ => false | None => true end) o.

(** *** What an object inherits

    The objects of the script are made by object literals, so what they do
    not own they inherit from [Object.prototype], taken as the language
    defines it: eleven functions, none of them enumerable, and the accessor
    [__proto__].  The values the script stores are strings and numbers. *)
Definition Object_prototype : list str :=
  ["constructor"; "hasOwnProperty"; "isPrototypeOf"; "propertyIsEnumerable";
   "toLocaleString"; "toString"; "valueOf";
   "__defineGetter__"; "__defineSetter__"; "__lookupGetter__"; "__lookupSetter__"].

(** What [o[k]] finds. *)
Inductive property (V : Type) :=
| Own (v : V)
| Method (name : str)
| Prototype
| Undefined.
Arguments Own {V} v.
Arguments Method {V} name.
Arguments Prototype {V}.
Arguments Undefined {V}.

(** [o[k]]: the own property, else the function of that name of
    [Object.prototype], else, for [__proto__], [Object.prototype] itself. *)
Definition read {V} (o : object V) (k : str) : property V :=
  match get o k with
  | Some v => Own v
  | None =>
      if existsb (str_eqb k) Object_prototype then Method k
      else if str_eqb k "__proto__" then Prototype
      else Undefined
  end.

(** [o[k] = v] for a string or number [v]: the property is updated or
    created, except that under the name [__proto__] an object without such a
    property of its own reaches the inherited setter, which ignores a value
    that is neither an object nor null. *)
Definition write {V} (o : object V) (k : str) (v : V) : object V :=
  match get o k with
  | Some _ => set o k v
  | None => if str_eqb k "__proto__" then o else set o k v
  end.

(** [o.hasOwnProperty(k)]: the inherited function, unless the object has a
    property of that name of its own, whose value is then called, and a
    string or number is not callable. *)
Definition hasOwnProperty {V} (o : object V) (k : str) : completion bool :=
  match get o "hasOwnProperty" with
  | Some _ => Throw TypeError
  | None => Normal (match get o k with Some _ => true | None => false end)
  end.

(** ** Template *)

Module Template.

(** [_escape]: six global replacements, the ampersand first. *)
Definition _escape (html : str) : str :=
  replace_all "/" "&#x2F;"
    (replace_all ">" "&gt;"
       (replace_all "<" "&lt;"
          (replace_all "'" "&#39;"
             (replace_all [dquote] "&quot;"
                (replace_all "&" "&amp;" html))))).

(** The source text ['{' + key + '}'] of the pattern of a key. *)
Definition placeholder (key : str) : str := "{" ++ key ++ "}".

(** The guarded body of the loop of [render]: one global replacement for
    [key], whose value in the data is [v]. *)
Definition render_key (raw : bool) (template key v : str) : completion str :=
  let value := if raw then v else _escape v in
  rx <- RegExp.new (placeholder key) ;;
  Normal (RegExp.replace rx value template).

(** The loop of [render] over the properties still to visit. *)
Fixpoint render_loop (data : object str) (raw : bool) (keys : list (str * str))
    (template : str) : completion str :=
  match keys with
  | [] => Normal template
  | (key, v) :: rest =>
      own <- hasOwnProperty data key ;;
      if own
      then template' <- render_key raw template key v ;;
           render_loop data raw rest template'
      else render_loop data raw rest template
  end.

Definition render (template : str) (data : object str) (raw : bool) : completion str :=
  render_loop data raw (for_in data) template.

(** The loop of [renderObject]; each property is rendered with the object
    [{key: key, value: data[key]}]. *)
Fixpoint renderObject_loop (template : str) (data : object str) (raw : bool)
    (keys : list (str * str)) (output : str) : completion str :=
  match keys with
  | [] => Normal output
  | (key, v) :: rest =>
      own <- hasOwnProperty data key ;;
      if own
      then item <- render template [("key", key); ("value", v)] raw ;;
           renderObject_loop template data raw rest (output ++ item)
      else renderObject_loop template data raw rest output
  end.

Definition renderObject (template : str) (data : object str) (raw : bool) : completion str :=
  renderObject_loop template data raw (for_in data) [].

End Template.

(** ** XPathResult and QueryResult *)

Module XPathResult.

(** An ordered snapshot of nodes, or the first node of the result. *)
Record t (node : Type) := { snapshot : list node }.

Definition snapshotLength {node} (r : t node) : nat := length (snapshot r).

Definition snapshotItem {node} (r : t node) (i : nat) : option node :=
  nth_error (snapshot r) i.

Definition singleNodeValue {node} (r : t node) : option node :=
  hd_error (snapshot r).

End XPathResult.

Module QueryResult.
Import XPathResult.

Record t (node : Type) := { result : XPathResult.t node; length : nat }.

(** The constructor: [this.result = result; this.length = result.snapshotLength]. *)
Definition new {node} (r : XPathResult.t node) : t node :=
  {| result := r; length := snapshotLength r |}.

(** [for (var i = 0, l = snapshotLength; i < l; i++) callback(snapshotItem(i))],
    entered at index [i] with [n] iterations left.  The callback acts on
    the state [St] it closes over and may throw; the state it has made by
    then stays. *)
Fixpoint forEach_loop {node St} (r : XPathResult.t node)
    (callback : node -> St -> completion unit * St) (i n : nat) (st : St)
  : completion unit * St :=
  match n with
  | O => (Normal tt, st)
  | S n' =>
      match snapshotItem r i with
      | Some item => and_then (callback item st) (forEach_loop r callback (i + 1) n')
      | None => forEach_loop r callback (i + 1) n' st
      end
  end.

Definition forEach {node St} (q : t node) (callback : node -> St -> completion unit * St)
    (st : St) : completion unit * St :=
  forEach_loop (result q) callback 0 (snapshotLength (result q)) st.

(** [map]: [forEach] with a callback that pushes onto a fresh array. *)
Definition map {node B} (q : t node) (callback : node -> B) : completion (list B) :=
  let (c, result) := forEach q (fun item result => (Normal tt, result ++ [callback item])) [] in
  bind c (fun _ => Normal result).

Definition all {node} (q : t node) : completion (list node) :=
  map q (fun item => item).

End QueryResult.

(** ** Numbers: binary64 *)

Module Number.

Definition number := spec_float.

Definition prec : Z := 53.
Definition emax : Z := 1024.

Definition NaN : number := S754_nan.
Definition zero : number := S754_zero false.
Definition add : number -> number -> number := SFadd prec emax.
Definition mul : number -> number -> number := SFmul prec emax.

(** The binary64 value nearest to an integer. *)
Definition of_Z (n : Z) : number := binary_normalize prec emax n 0 false.

Definition one : number := of_Z 1.

(** The binary64 value nearest to [n / d], for [0 <= n] and [0 < d]. *)
Definition of_ratio (negative : bool) (n d : Z) : number :=
  if (n =? 0)%Z then S754_zero negative
  else
    let '(q, e, l) := SFdiv_core_binary prec emax n 0 d 0 in
    binary_round_aux prec emax negative q e l.

(** [m * 10^e], signed. *)
Definition of_decimal (negative : bool) (m e : Z) : number :=
  let x :=
    if (0 <=? e)%Z then binary_normalize prec emax (m * 10 ^ e) 0 false
    else of_ratio false m (10 ^ (- e)) in
  if negative then SFopp x else x.

(** *** ToNumber applied to a string *)

Definition is_whitespace (c : ascii) : bool :=
  let n := nat_of_ascii c in
  ((9 <=? n) && (n <=? 13) || (n =? 32) || (n =? 160))%nat.

Fixpoint trim_left (s : str) : str :=
  match s with
  | c :: r => if is_whitespace c then trim_left r else s
  | [] => []
  end.

Definition trim (s : str) : str := rev (trim_left (rev (trim_left s))).

Fixpoint span_digits (s : str) : str * str :=
  match s with
  | c :: r => if is_digit c then let (d, t) := span_digits r in (c :: d, t) else ([], s)
  | [] => ([], [])
  end.

Definition is_nil {A} (l : list A) : bool :=
  match l with [] => true | _ => false end.

(** ExponentPart, optional: the text after the mantissa up to the end. *)
Definition parse_exponent (s : str) : option Z :=
  match s with
  | [] => Some 0%Z
  | c :: r =>
      if Ascii.eqb c "e" || Ascii.eqb c "E" then
        let '(negative, r') :=
          match r with
          | "-"%char :: t => (true, t)
          | "+"%char :: t => (false, t)
          | _ => (false, r)
          end in
        let (d, t) := span_digits r' in
        if negb (is_nil d) && is_nil t
        then Some (if negative then - digits_value 0 d else digits_value 0 d)%Z
        else None
      else None
  end.

(** StrUnsignedDecimalLiteral other than [Infinity]: mantissa and
    decimal exponent. *)
Definition parse_unsigned (s : str) : option (Z * Z) :=
  let (ip, r1) := span_digits s in
  match r1 with
  | "."%char :: r2 =>
      let (fp, r3) := span_digits r2 in
      if is_nil ip && is_nil fp then None
      else match parse_exponent r3 with
           | Some e => Some (digits_value 0 (ip ++ fp), e - Z.of_nat (List.length fp))%Z
           | None => None
           end
  | _ =>
      if is_nil ip then None
      else match parse_exponent r1 with
           | Some e => Some (digits_value 0 ip, e)
           | None => None
           end
  end.

Definition hex_value (c : ascii) : option Z :=
  let n := nat_of_ascii c in
  if ((48 <=? n) && (n <=? 57))%nat then Some (Z.of_nat n - 48)%Z
  else if ((65 <=? n) && (n <=? 70))%nat then Some (Z.of_nat n - 55)%Z
  else if ((97 <=? n) && (n <=? 102))%nat then Some (Z.of_nat n - 87)%Z
  else None.

Fixpoint radix_value (radix acc : Z) (s : str) : option Z :=
  match s with
  | [] => Some acc
  | c :: r =>
      match hex_value c with
      | Some d => if (d <? radix)%Z then radix_value radix (radix * acc + d)%Z r else None
      | None => None
      end
  end.

(** NonDecimalIntegerLiteral: [0x], [0o] and [0b] literals. *)
Definition parse_nondecimal (s : str) : option Z :=
  match s with
  | "0"%char :: c :: d :: r =>
      if Ascii.eqb c "x" || Ascii.eqb c "X" then radix_value 16 0 (d :: r)
      else if Ascii.eqb c "o" || Ascii.eqb c "O" then radix_value 8 0 (d :: r)
      else if Ascii.eqb c "b" || Ascii.eqb c "B" then radix_value 2 0 (d :: r)
      else None
  | _ => None
  end.

(** StrNumericLiteral, on text without surrounding white space. *)
Definition parse_numeric (s : str) : option number :=
  match parse_nondecimal s with
  | Some n => Some (of_Z n)
  | None =>
      let '(negative, u) :=
        match s with
        | "-"%char :: t => (true, t)
        | "+"%char :: t => (false, t)
        | _ => (false, s)
        end in
      if str_eqb u "Infinity" then Some (S754_infinity negative)
      else match parse_unsigned u with
           | Some (m, e) => Some (of_decimal negative m e)
           | None => None
           end
  end.

(** StringToNumber: white space alone is [+0], text that is not a
    numeric literal is [NaN]. *)
Definition to_number (s : str) : number :=
  let t := trim s in
  if is_nil t then zero
  else match parse_numeric t with
       | Some x => x
       | None => NaN
       end.

(** *** Number.prototype.toFixed *)

Definition digit_char (d : Z) : ascii := ascii_of_nat (48 + Z.to_nat d).

Fixpoint decimal_digits (fuel : nat) (n : Z) (acc : str) : str :=
  match fuel with
  | O => acc
  | S k =>
      let acc' := digit_char (n mod 10) :: acc in
      if (n <? 10)%Z then acc' else decimal_digits k (n / 10) acc'
  end.

(** Decimal representation of a non-negative integer. *)
Definition Z_to_decimal (n : Z) : str :=
  decimal_digits (S (Z.to_nat (Z.log2 n))) n [].

(** Digits of [n] with a point before the last [f] of them. *)
Definition fixed_digits (n : Z) (f : nat) : str :=
  let m := Z_to_decimal n in
  match f with
  | O => m
  | _ =>
      let m' := repeat "0"%char (f + 1 - List.length m) ++ m in
      let k := List.length m' in
      firstn (k - f) m' ++ "." ++ skipn (k - f) m'
  end.

(** Shortest digits for an integer-valued [x >= 10^21] with exact value
    [X]: the least [k] for which some [s * 10^(n-k)] with [k] digits in
    [s] reads back as [x], the nearest such [s] first. *)
Definition roundtrips (x : number) (v : Z) : bool :=
  match SFcompare (of_Z v) x with Some Eq => true | _ => false end.

Fixpoint shortest (fuel : nat) (x : number) (X : Z) (nd k : Z) : Z * Z * Z :=
  let p := (10 ^ (nd - k))%Z in
  let lo := (X / p)%Z in
  let hi := (lo + 1)%Z in
  let ok_lo := roundtrips x (lo * p) in
  let ok_hi := roundtrips x (hi * p) in
  let hi_first := ok_hi && (negb ok_lo || (hi * p - X <? X - lo * p)%Z) in
  match fuel with
  | O => (lo, nd, k)
  | S fuel' =>
      if hi_first then
        (if (hi <? 10 ^ k)%Z then (hi, nd, k) else (1, nd + 1, 1))%Z
      else if ok_lo then (lo, nd, k)
      else shortest fuel' x X nd (k + 1)
  end.

Fixpoint strip_zeros (rev_digits : str) : str :=
  match rev_digits with
  | c :: r => if Ascii.eqb c "0" then strip_zeros r else rev_digits
  | [] => []
  end.

(** Number::toString for a finite integer-valued number of magnitude at
    least [10^21], given its exact value. *)
Definition exponential (x : number) (X : Z) : str :=
  let nd := Z.of_nat (List.length (Z_to_decimal X)) in
  let '(s, n, _) := shortest 17 x X nd 1 in
  let d := rev (strip_zeros (rev (Z_to_decimal s))) in
  match d with
  | [] => "0"
  | c :: r =>
      (c :: match r with [] => [] | _ => "." ++ r end)
        ++ "e+" ++ Z_to_decimal (n - 1)
  end.

(** The text of [x] with [f] digits after the point, for [0 <= f <= 100]. *)
Definition fixed (x : number) (f : nat) : str :=
  match x with
  | S754_nan => "NaN"
  | S754_infinity s => (if s then "-" else "") ++ "Infinity"
  | S754_zero _ => fixed_digits 0 f
  | S754_finite s m e =>
      (if s then "-" else "") ++
      (if (0 <=? e)%Z && (10 ^ 21 <=? Z.pos m * 2 ^ e)%Z
       then exponential (S754_finite false m e) (Z.pos m * 2 ^ e)
       else
         let n :=
           if (0 <=? e)%Z then (Z.pos m * 2 ^ e * 10 ^ Z.of_nat f)%Z
           else ((2 * Z.pos m * 10 ^ Z.of_nat f + 2 ^ (- e)) / (2 * 2 ^ (- e)))%Z in
         fixed_digits n f)
  end.

(** [x.toFixed(fractionDigits)] for an integral number of digits: a
    RangeError outside 0..100, whatever [x] is. *)
Definition toFixed (x : number) (fractionDigits : Z) : completion str :=
  if (fractionDigits <? 0)%Z || (100 <? fractionDigits)%Z then Throw RangeError
  else Normal (fixed x (Z.to_nat fractionDigits)).

End Number.

(** ** The document

    The part of the page the script touches: the table rows, each with its
    cells, and the elements among which the summary is inserted.  A row node
    is its position in the document, so every holder of the node sees the
    same row. *)

Module Dom.

Inductive child :=
| Text (s : str)
| Span (s : str).

Record cell := { cell_class : str; cell_children : list child }.

Record row := { classList : list str; cells : list cell }.

Record element := { id : str; innerHTML : str }.

Record document := { rows : list row; elements : list element }.

Definition node := nat.

Definition child_text (c : child) : str :=
  match c with Text s => s | Span s => s end.

Definition textContent (c : cell) : str := concat (List.map child_text (cell_children c)).

(** XPath [contains(a, b)]. *)
Fixpoint contains (a b : str) : bool :=
  starts_with b a || match a with [] => false | _ :: r => contains r b end.

Definition getElementById (d : document) (i : str) : option element :=
  find (fun e => str_eqb (id e) i) (elements d).

(** [anchor.parentNode.insertBefore(e, anchor)] for the first element
    whose id is [i]. *)
Fixpoint insertBefore (e : element) (i : str) (l : list element) : list element :=
  match l with
  | [] => []
  | x :: r => if str_eqb (id x) i then e :: x :: r else x :: insertBefore e i r
  end.

Fixpoint update {A} (l : list A) (n : nat) (f : A -> A) : list A :=
  match l, n with
  | [], _ => []
  | x :: r, O => f x :: r
  | x :: r, S k => x :: update r k f
  end.

(** [classList.add]. *)
Definition classList_add (c : str) (r : row) : row :=
  {| classList := if existsb (str_eqb c) (classList r) then classList r
                  else classList r ++ [c];
     cells := cells r |}.

End Dom.

Module Xpath.
Import Dom.

(** A row path ['//tr[td[contains(@class, "c")]/span[text()="t"]]'], given
    by [c] and [t]: the test it puts on a row. *)
Definition row_matches (path : str * str) (r : row) : bool :=
  existsb
    (fun c =>
       contains (cell_class c) (fst path)
       && existsb (fun k => match k with Span s => str_eqb s (snd path) | Text _ => false end)
            (cell_children c))
    (cells r).

Fixpoint select_from (path : str * str) (i : nat) (l : list row) : list node :=
  match l with
  | [] => []
  | r :: t =>
      if row_matches path r then i :: select_from path (S i) t
      else select_from path (S i) t
  end.

(** [document.evaluate] of a row path, as an ordered snapshot. *)
Definition evaluate_rows (path : str * str) (d : document) : XPathResult.t node :=
  {| XPathResult.snapshot := select_from path 0 (rows d) |}.

(** [document.evaluate] of a cell path ['td[contains(@class, "c")]'], given
    by [c], from a row. *)
Definition evaluate_cells (path : str) (d : document) (source : node) : XPathResult.t cell :=
  {| XPathResult.snapshot :=
       match nth_error (rows d) source with
       | Some r => filter (fun k => contains (cell_class k) path) (cells r)
       | None => []
       end |}.

(** [findAll(path)]: the query result over the rows of the document. *)
Definition findAll (path : str * str) (d : document) : QueryResult.t node :=
  QueryResult.new (evaluate_rows path d).

(** [find(path, row)]: the first matching cell of the row, or null. *)
Definition find (path : str) (d : document) (source : node) : option cell :=
  XPathResult.singleNodeValue (evaluate_cells path d source).

End Xpath.

(** ** Highlight *)

Module Highlight.
Import Dom.

Definition HIGHLIGHT_CLASS : str := "admin_helper_highlight".

(** [row.classList.add(self.HIGHLIGHT_CLASS)]. *)
Definition highlight (row : node) (d : document) : document :=
  {| Dom.rows := update (Dom.rows d) row (classList_add HIGHLIGHT_CLASS);
     elements := elements d |}.

Definition run (rows : QueryResult.t node) (d : document) : completion unit * document :=
  QueryResult.forEach rows (fun row d => (Normal tt, highlight row d)) d.

End Highlight.

(** ** Summarize *)

Module Summarize.
Import Dom Number.

(** ['td[contains(@class, "hours")]'] and ['td[contains(@class, "notes")]']. *)
Definition HOUR_CELL : str := "hours".
Definition NOTE_CELL : str := "notes".
Definition TARGET_OUTPUT : str := "TSEntryInline".
Definition OUTPUT_ID : str := "admin_helper".

(** The dot of a regular expression matches all but line terminators. *)
Definition is_line_terminator (c : ascii) : bool :=
  Ascii.eqb c "010" || Ascii.eqb c "013".

(** What must follow the group of [/(.+?): .+/]. *)
Definition label_end (s : str) : bool :=
  match s with
  | ":"%char :: " "%char :: c :: _ => negb (is_line_terminator c)
  | _ => false
  end.

(** The shortest group that starts at the head of [s]. *)
Fixpoint label_at (s : str) : option str :=
  match s with
  | [] => None
  | c :: r =>
      if is_line_terminator c then None
      else if label_end r then Some [c]
      else option_map (cons c) (label_at r)
  end.

(** [text.match(/(.+?): .+/)], reduced to its first group: the leftmost
    position at which the expression matches. *)
Fixpoint match_label (s : str) : option str :=
  match label_at s with
  | Some l => Some l
  | None => match s with [] => None | _ :: r => match_label r end
  end.

(** The text [+=] makes when what it reads under a label is no number, in
    its pieces: the source text of a function of [Object.prototype] (which
    the implementation defines), the text of [Object.prototype] itself, the
    text of a number. *)
Inductive piece :=
| FunctionText (name : str)
| ObjectText
| NumberText (x : number).

(** What [totals] holds under a label: a number or such a text. *)
Inductive total :=
| Num (x : number)
| Str (pieces : list piece).

(** [v + hours] for what [totals[label]] finds. *)
Definition plus (v : property total) (hours : number) : total :=
  match v with
  | Own (Num x) => Num (add x hours)
  | Own (Str pieces) => Str (pieces ++ [NumberText hours])
  | Method name => Str [FunctionText name; NumberText hours]
  | Prototype => Str [ObjectText; NumberText hours]
  | Undefined => Num NaN
  end.

(** The callback of [run], acting on [totals]. *)
Definition add_row (d : document) (row : node) (totals : object total)
  : completion unit * object total :=
  match Xpath.find NOTE_CELL d row with
  | None => (Throw TypeError, totals)
  | Some noteNode =>
      match match_label (textContent noteNode) with
      | None => (Normal tt, totals)
      | Some label =>
          match Xpath.find HOUR_CELL d row with
          | None => (Throw TypeError, totals)
          | Some hourNode =>
              let hours := mul (to_number (textContent hourNode)) one in
              let totals :=
                match read totals label with
                | Undefined => write totals label (Num zero)
                | _ => totals
                end in
              (Normal tt, write totals label (plus (read totals label) hours))
          end
      end
  end.

(** [totals[key].toFixed(decimals)]: a text has no such method. *)
Definition total_toFixed (v : total) (decimals : Z) : completion str :=
  match v with
  | Num x => toFixed x decimals
  | Str _ => Throw TypeError
  end.

(** The loop of [_formatTotals] over the properties still to visit. *)
Fixpoint formatTotals_loop (totals : object total) (decimals : Z)
    (keys : list (str * total)) (formattedTotals : object str) : completion (object str) :=
  match keys with
  | [] => Normal formattedTotals
  | (key, v) :: rest =>
      own <- hasOwnProperty totals key ;;
      if own
      then text <- total_toFixed v decimals ;;
           formatTotals_loop totals decimals rest (write formattedTotals key text)
      else formatTotals_loop totals decimals rest formattedTotals
  end.

(** [decimals] is [undefined] or an integral number. *)
Definition _formatTotals (totals : object total) (decimals : option Z)
  : completion (object str) :=
  let decimals := match decimals with None => 2%Z | Some n => n end in
  formatTotals_loop totals decimals (for_in totals) [].

Definition _shouldRender (totals : object total) : bool :=
  match for_in totals with
  | [] => false
  | _ :: _ => true
  end.

(** The item template, in the three parts its placeholders leave. *)
Definition item_open : str := "<li>".
Definition item_middle : str :=
  ": <span class=" ++ [dquote] ++ "admin_helper_hours" ++ [dquote] ++ ">".
Definition item_close : str := "</span>".

Definition item_template : str :=
  item_open ++ "{key}" ++ item_middle ++ "{value}" ++ item_close.

(** The markup assigned to [summary.innerHTML]. *)
Definition summary_markup (totals : object total) : completion str :=
  formattedTotals <- _formatTotals totals None ;;
  items <- Template.renderObject item_template formattedTotals false ;;
  Template.render "<ul>{items}</ul>" [("items", items)] true.

(** The summary element is complete before it is inserted, so a call that
    throws leaves the document as it was. *)
Definition _render (totals : object total) (d : document) : completion unit * document :=
  match getElementById d TARGET_OUTPUT with
  | Some entries =>
      if _shouldRender totals then
        match summary_markup totals with
        | Normal markup =>
            let summary := {| id := OUTPUT_ID; innerHTML := markup |} in
            (Normal tt,
             {| rows := rows d; elements := insertBefore summary TARGET_OUTPUT (elements d) |})
        | Throw e => (Throw e, d)
        | Unmodelled => (Unmodelled, d)
        end
      else (Normal tt, d)
  | None => (Normal tt, d)
  end.

(** The aggregation pass of [run], from the empty [totals]. *)
Definition aggregate (rows : QueryResult.t node) (d : document)
  : completion unit * object total :=
  QueryResult.forEach rows (add_row d) [].

Definition run (rows : QueryResult.t node) (d : document) : completion unit * document :=
  match aggregate rows d with
  | (Normal _, totals) => _render totals d
  | (Throw e, _) => (Throw e, d)
  | (Unmodelled, _) => (Unmodelled, d)
  end.

End Summarize.

(** ** AdminHelper *)

Module AdminHelper.
Import Dom.

(** ['//tr[td[contains(@class, "project")]/span[text()="ADMIN"]]']. *)
Definition ADMIN_ROWS : str * str := ("project", "ADMIN").

(** A hook: an object whose [run] property may or may not be a function. *)
Record hook :=
  { run : option (QueryResult.t node -> document -> completion unit * document) }.

(** [hooks.forEach(...)] over the one snapshot [rows]. *)
Fixpoint dispatch (rows : QueryResult.t node) (hooks : list hook) (d : document)
  : completion unit * document :=
  match hooks with
  | [] => (Normal tt, d)
  | h :: rest =>
      match run h with
      | Some f => and_then (f rows d) (dispatch rows rest)
      | None => dispatch rows rest d
      end
  end.

Definition _iterateRows (hooks : list hook) (d : document) : completion unit * document :=
  let rows := Xpath.findAll ADMIN_ROWS d in
  dispatch rows hooks d.

Definition init (hooks : list hook) (d : document) : completion unit * document :=
  _iterateRows hooks d.

Definition Highlight : hook := {| run := Some Highlight.run |}.
Definition Summarize : hook := {| run := Some Summarize.run |}.

(** The call at the end of the script. *)
Definition main (d : document) : completion unit * document :=
  init [Highlight; Summarize] d.

End AdminHelper.

(** ** Sample page *)

Module Sample.
Import Dom.

Definition admin_cell : cell := {| cell_class := "project"; cell_children := [Span "ADMIN"] |}.
Definition other_cell : cell := {| cell_class := "project"; cell_children := [Span "DEV"] |}.
Definition notes (s : str) : cell := {| cell_class := "notes"; cell_children := [Text s] |}.
Definition hours (s : str) : cell := {| cell_class := "hours numeric"; cell_children := [Text s] |}.

Definition entry (note hrs : str) : row :=
  {| classList := []; cells := [admin_cell; notes note; hours hrs] |}.

Definition anchor : element := {| id := "TSEntryInline"; innerHTML := "" |}.
Definition header : element := {| id := "header"; innerHTML := "<h1>Timesheet</h1>" |}.

Definition page : document :=
  {| rows := [entry "A: x" "1.5";
              {| classList := ["odd"]; cells := [other_cell; notes "C: w"; hours "9"] |};
              entry "B: y" "2.25";
              entry "A: z" "0.75"];
     elements := [header; anchor] |}.

(** The three entries A: x, B: y, A: z with 1.5, 2.25 and 0.75 hours. *)
Definition timesheet : document :=
  {| rows := [entry "A: x" "1.5"; entry "B: y" "2.25"; entry "A: z" "0.75"];
     elements := [header; anchor] |}.

(** An admin row without a notes cell, after a complete one. *)
Definition page_without_note : document :=
  {| rows := [entry "A: x" "1.5"; {| classList := []; cells := [admin_cell; hours "2"] |}];
     elements := [header; anchor] |}.

(** An admin row whose note has a label but which has no hours cell. *)
Definition page_without_hours : document :=
  {| rows := [{| classList := []; cells := [admin_cell; notes "A: x"] |}];
     elements := [header; anchor] |}.

(** An admin row with a note without label and no hours cell. *)
Definition page_plain_note : document :=
  {| rows := [{| classList := []; cells := [admin_cell; notes "lunch"] |}];
     elements := [header; anchor] |}.

(** Three entries under one label, the second with hours that are no number. *)
Definition page_bad_hours : document :=
  {| rows := [entry "A: x" "1.5"; entry "A: y" "n/a"; entry "A: z" "2"];
     elements := [header; anchor] |}.

(** One entry whose label names a function every object inherits. *)
Definition page_constructor : document :=
  {| rows := [entry "constructor: site visit" "1.5"];
     elements := [header; anchor] |}.

(** Entries under such a label, the first with hours that are no number. *)
Definition page_constructor_bad_hours : document :=
  {| rows := [entry "constructor: site visit" "n/a"; entry "constructor: review" "2"];
     elements := [header; anchor] |}.

(** One entry whose label is a dollar sign and a backquote. *)
Definition page_tick : document :=
  {| rows := [entry "$`: x" "1"]; elements := [header; anchor] |}.

(** A template with a repeated placeholder and one for a key without value. *)
Definition greeting : str := "{x}-{x}-{y}".

End Sample.

(** ** Vocabulary of the statements *)

(** Calling [callback] once for each node of a sequence, in order, up to
    the first call that does not return. *)
Fixpoint visit {node St} (l : list node) (callback : node -> St -> completion unit * St)
    (st : St) : completion unit * St :=
  match l with
  | [] => (Normal tt, st)
  | x :: r => and_then (callback x st) (visit r callback)
  end.

(** The entity [_escape] writes for a character, or the character itself. *)
Definition entity_of (x : ascii) : str :=
  if Ascii.eqb x "&" then "&amp;"
  else if Ascii.eqb x dquote then "&quot;"
  else if Ascii.eqb x "'" then "&#39;"
  else if Ascii.eqb x "<" then "&lt;"
  else if Ascii.eqb x ">" then "&gt;"
  else if Ascii.eqb x "/" then "&#x2F;"
  else [x].

(** Characters with a meaning in the pattern syntax. *)
Definition syntax_char (c : ascii) : bool :=
  existsb (Ascii.eqb c) "\^$.*+?()[]{}|".

(** Keys for which [new RegExp('{' + key + '}', 'g')] matches the literal
    placeholder: no syntax character, and no leading digit, which would make
    the braces a quantifier (and the key an array index). *)
Definition literal_key (k : str) : bool :=
  forallb (fun c => negb (syntax_char c)) k
  && match k with c :: _ => negb (is_digit c) | [] => true end.

(** An object (each key once) whose keys are literal and which has no
    property named [hasOwnProperty]: the data for which [render] makes one
    pass per key with the placeholder as a plain text pattern. *)
Definition literal_data {V} (D : object V) : Prop :=
  distinct_keys D
  /\ Forall (fun e => literal_key (fst e) = true) D
  /\ get D "hasOwnProperty" = None.

(** Not part of the script: the text that [render] and [renderObject]
    return for such data (lemmas [render_literal] and [renderObject_literal]),
    written as a fold of replacements of the placeholder text.  The lemmas on
    templates are proved on this form. *)
Module Literal.

Definition render_key (raw : bool) (template : str) (entry : str * str) : str :=
  let (key, v) := entry in
  let value := if raw then v else Template._escape v in
  replace_all (Template.placeholder key) value template.

Definition render (template : str) (data : object str) (raw : bool) : str :=
  fold_left (render_key raw) (for_in data) template.

Definition renderObject (template : str) (data : object str) (raw : bool) : str :=
  fold_left
    (fun output e =>
       output ++ render template [("key", fst e); ("value", snd e)] raw)
    (for_in data) [].

End Literal.

(** Text outside the tags of a markup string. *)
Fixpoint text_of_markup (in_tag : bool) (s : str) : str :=
  match s with
  | [] => []
  | c :: r =>
      if Ascii.eqb c "<" then text_of_markup true r
      else if in_tag then text_of_markup (negb (Ascii.eqb c ">")) r
      else c :: text_of_markup false r
  end.

(** Text that StringToNumber reads as a number: white space alone, or a
    numeric literal between optional white space. *)
Definition numeric_text (s : str) : bool :=
  Number.is_nil (Number.trim s)
  || match Number.parse_numeric (Number.trim s) with Some _ => true | None => false end.

(** The characters of the texts [toFixed] returns. *)
Definition numeric_char (c : ascii) : bool :=
  is_digit c || existsb (Ascii.eqb c) ".-+eNaInfity".

(** A row of the document carries the class [c]. *)
Definition has_class (d : Dom.document) (n : Dom.node) (c : str) : Prop :=
  exists r, nth_error (Dom.rows d) n = Some r /\ In c (Dom.classList r).

(** The characters [_escape] rewrites. *)
Definition escapable (c : ascii) : bool :=
  existsb (Ascii.eqb c) ("&<>'/" ++ [dquote]).

(** A template read as literal text and placeholders. *)
Inductive token :=
| Lit (s : str)
| Hole (key : str).

Definition token_text (t : token) : str :=
  match t with
  | Lit s => s
  | Hole k => Template.placeholder k
  end.

Definition flatten (l : list token) : str := concat (List.map token_text l).

(** The text a token stands for under [data]: literal text for itself, a
    placeholder for the (escaped) value of its key, or for itself when the
    data has no such key. *)
Definition instantiate (raw : bool) (data : object str) (t : token) : str :=
  match t with
  | Lit s => s
  | Hole k =>
      match get data k with
      | Some v => if raw then v else Template._escape v
      | None => Template.placeholder k
      end
  end.

(** The tokens after the pass for [key]: its placeholders become text. *)
Definition fill_token (key value : str) (t : token) : token :=
  match t with
  | Lit s => Lit s
  | Hole k => if str_eqb k key then Lit value else Hole k
  end.

(** Literal text without opening brace; keys without braces. *)
Definition plain_token (t : token) : Prop :=
  match t with
  | Lit s => ~ In "{"%char s
  | Hole k => ~ In "{"%char k /\ ~ In "}"%char k
  end.

(** A value that spells neither a replacement pattern nor a placeholder. *)
Definition plain_value (v : str) : Prop := ~ In "$"%char v /\ ~ In "{"%char v.

(** The label [run] reads from a row, if the row has a note with a label. *)
Definition row_label (d : Dom.document) (n : Dom.node) : option str :=
  match Xpath.find Summarize.NOTE_CELL d n with
  | Some noteNode => Summarize.match_label (Dom.textContent noteNode)
  | None => None
  end.

(** The hours [run] reads from a row with an hours cell. *)
Definition row_hours (d : Dom.document) (n : Dom.node) : Number.number :=
  match Xpath.find Summarize.HOUR_CELL d n with
  | Some hourNode => Number.mul (Number.to_number (Dom.textContent hourNode)) Number.one
  | None => Number.NaN
  end.

(** The hours of the rows that carry [label], in row order. *)
Definition hours_for (d : Dom.document) (label : str) (rows : list Dom.node)
  : list Number.number :=
  List.map (row_hours d)
    (filter (fun n => match row_label d n with
                      | Some l => str_eqb l label
                      | None => false
                      end) rows).

(** What one row with the label and hours [h] makes of what [totals]
    holds under the label. *)
Definition total_step (label : str) (held : option Summarize.total) (h : Number.number)
  : option Summarize.total :=
  match held with
  | Some v => Some (Summarize.plus (Own v) h)
  | None =>
      if existsb (str_eqb label) Object_prototype
      then Some (Summarize.Str [Summarize.FunctionText label; Summarize.NumberText h])
      else if str_eqb label "__proto__" then None
      else Some (Summarize.Num (Number.add Number.zero h))
  end.

(** What a pass leaves under a label that rows carry, given their hours:
    the sum from zero for a label that is the name of nothing inherited, a
    text that starts with the source of the inherited function otherwise,
    and nothing under [__proto__]. *)
Definition total_of (label : str) (hours : list Number.number) : option Summarize.total :=
  match hours with
  | [] => None
  | _ :: _ =>
      if existsb (str_eqb label) Object_prototype
      then Some (Summarize.Str (Summarize.FunctionText label
                                  :: List.map Summarize.NumberText hours))
      else if str_eqb label "__proto__" then None
      else Some (Summarize.Num (fold_left Number.add hours Number.zero))
  end.

(** The rows of a rendered item for one entry of the formatted totals. *)
Definition summary_item (e : str * str) : str :=
  Summarize.item_open ++ Template._escape (fst e) ++ Summarize.item_middle
    ++ snd e ++ Summarize.item_close.

(** The tokens of [Sample.greeting] and of the item template. *)
Definition greeting_tokens : list token :=
  [Hole "x"; Lit "-"; Hole "x"; Lit "-"; Hole "y"].

Definition item_tokens : list token :=
  [Lit Summarize.item_open; Hole "key"; Lit Summarize.item_middle; Hole "value";
   Lit Summarize.item_close].

(** * Properties *)

(** ** Strings and objects *)

#[local] Arguments Ascii.eqb : simpl never.

Lemma starts_with_app (p r : str) : starts_with p (p ++ r) = true.
Proof.
  induction p as [|a p IH]; simpl; [reflexivity|].
  now rewrite Ascii.eqb_refl, IH.
Qed.

Lemma starts_with_split (p s : str) :
  starts_with p s = true -> exists r, s = p ++ r.
Proof.
  revert s; induction p as [|a p IH]; intros s H; simpl in *.
  - now exists s.
  - destruct s as [|b s]; [discriminate|].
    apply andb_true_iff in H as [Hab H].
    apply Ascii.eqb_eq in Hab; subst b.
    destruct (IH _ H) as [r ->]. now exists r.
Qed.

Lemma str_eqb_eq (a b : str) : str_eqb a b = true <-> a = b.
Proof.
  unfold str_eqb. split.
  - intros H. apply andb_true_iff in H as [Hl Hs].
    apply Nat.eqb_eq in Hl.
    destruct (starts_with_split _ _ Hs) as [r ->].
    rewrite length_app in Hl.
    destruct r; [now rewrite app_nil_r|simpl in Hl; lia].
  - intros ->. rewrite Nat.eqb_refl. simpl.
    rewrite <- (app_nil_r b) at 2. apply starts_with_app.
Qed.

Lemma str_eqb_refl (a : str) : str_eqb a a = true.
Proof. now apply str_eqb_eq. Qed.

Lemma str_eqb_neq (a b : str) : str_eqb a b = false <-> a <> b.
Proof.
  split.
  - intros H E. apply str_eqb_eq in E. congruence.
  - intros H. destruct (str_eqb a b) eqn:E; [|reflexivity].
    apply str_eqb_eq in E. contradiction.
Qed.

Lemma get_set_same {V} (o : object V) k v : get (set o k v) k = Some v.
Proof.
  induction o as [|[k' v'] o IH]; simpl.
  - now rewrite str_eqb_refl.
  - destruct (str_eqb k k') eqn:E; simpl; rewrite E; [reflexivity|exact IH].
Qed.

Lemma get_set_other {V} (o : object V) k k' v : k <> k' -> get (set o k v) k' = get o k'.
Proof.
  intros Hk. induction o as [|[k0 v0] o IH]; simpl.
  - assert (str_eqb k' k = false) as -> by (apply str_eqb_neq; congruence).
    reflexivity.
  - destruct (str_eqb k k0) eqn:E; simpl.
    + apply str_eqb_eq in E; subst k0.
      assert (str_eqb k' k = false) as -> by (apply str_eqb_neq; congruence).
      reflexivity.
    + destruct (str_eqb k' k0); [reflexivity|exact IH].
Qed.

Lemma insert_index_not_nil {V} n (e : str * V) l : insert_index n e l <> [].
Proof. destruct l as [|[m e'] l]; simpl; [|destruct (n <? m)%Z]; discriminate. Qed.

Lemma for_in_nil_iff {V} (o : object V) : for_in o = [] <-> o = [].
Proof.
  split; [|now intros ->].
  destruct o as [|[k v] o]; [reflexivity|].
  unfold for_in. simpl. intros H. apply app_eq_nil in H as [H1 H2].
  destruct (array_index k) eqn:E.
  - apply map_eq_nil in H1. now apply insert_index_not_nil in H1.
  - discriminate.
Qed.

(** ** Completions *)

Lemma and_then_return {St} (r : completion unit * St) :
  and_then r (fun st => (Normal tt, st)) = r.
Proof. destruct r as [[[]|e|] st]; reflexivity. Qed.

Lemma and_then_assoc {St} (r : completion unit * St) (k1 k2 : St -> completion unit * St) :
  and_then (and_then r k1) k2 = and_then r (fun st => and_then (k1 st) k2).
Proof. destruct r as [[u|e|] st]; reflexivity. Qed.

Lemma and_then_ext {St} (r : completion unit * St) (k1 k2 : St -> completion unit * St) :
  (forall st, k1 st = k2 st) -> and_then r k1 = and_then r k2.
Proof. intros H. destruct r as [[u|e|] st]; simpl; [apply H|reflexivity|reflexivity]. Qed.

(** ** QueryResult *)

Lemma skipn_nth_error {A} (l : list A) i x :
  nth_error l i = Some x -> skipn i l = x :: skipn (S i) l.
Proof.
  revert i; induction l as [|a l IH]; intros [|i] H; simpl in *; try discriminate.
  - now inversion H.
  - now apply IH.
Qed.

Lemma forEach_loop_visit {node St} (r : XPathResult.t node)
    (callback : node -> St -> completion unit * St) n :
  forall i st, i + n = List.length (XPathResult.snapshot r) ->
    QueryResult.forEach_loop r callback i n st
    = visit (skipn i (XPathResult.snapshot r)) callback st.
Proof.
  induction n as [|n IH]; intros i st Hn; simpl.
  - rewrite skipn_all2 by lia. reflexivity.
  - unfold XPathResult.snapshotItem.
    destruct (nth_error (XPathResult.snapshot r) i) as [x|] eqn:E.
    + rewrite (skipn_nth_error _ _ E). simpl.
      apply and_then_ext. intros st'.
      rewrite IH by lia. now rewrite Nat.add_1_r.
    + apply nth_error_None in E. lia.
Qed.

Lemma forEach_visit {node St} (q : QueryResult.t node)
    (callback : node -> St -> completion unit * St) st :
  QueryResult.forEach q callback st
  = visit (XPathResult.snapshot (QueryResult.result q)) callback st.
Proof.
  unfold QueryResult.forEach, XPathResult.snapshotLength.
  now rewrite forEach_loop_visit.
Qed.

Lemma visit_push {node B} (f : node -> B) (l : list node) acc :
  visit l (fun item acc => (Normal tt, acc ++ [f item])) acc
  = (Normal tt, acc ++ List.map f l).
Proof.
  revert acc; induction l as [|x l IH]; intros acc; simpl.
  - now rewrite app_nil_r.
  - rewrite IH, <- app_assoc. reflexivity.
Qed.

Lemma map_spec {node B} (q : QueryResult.t node) (f : node -> B) :
  QueryResult.map q f = Normal (List.map f (XPathResult.snapshot (QueryResult.result q))).
Proof. unfold QueryResult.map. now rewrite forEach_visit, visit_push. Qed.

(** C7. A QueryResult can be iterated any number of times: every call of
    [forEach] runs the callback on the nodes of the snapshot in order, every
    call of [map] returns the images of those nodes, every call of [all]
    returns the nodes themselves, and they are as many as [length] says. *)
Theorem QueryResult_reiterable :
  forall (node : Type) (r : XPathResult.t node),
    let R := QueryResult.new r in
    (forall St (callback : node -> St -> completion unit * St) st,
        QueryResult.forEach R callback st = visit (XPathResult.snapshot r) callback st)
    /\ (forall B (f : node -> B),
           QueryResult.map R f = Normal (List.map f (XPathResult.snapshot r)))
    /\ QueryResult.all R = Normal (XPathResult.snapshot r)
    /\ List.length (XPathResult.snapshot r) = QueryResult.length R.
Proof.
  intros node r R. repeat split.
  - intros. apply forEach_visit.
  - intros. apply map_spec.
  - unfold QueryResult.all. rewrite map_spec. simpl. now rewrite map_id.
Qed.

(** ** Template: sequential passes *)

(** C9. Substitution runs one pass per key, so a placeholder that a value
    brings in is expanded by a later key's pass: [{a}] with [a = {b}] and
    [b = X] renders as [X] although [{b}] does not occur in the template,
    and a label spelling [{value}] is replaced in a rendered item. *)
Theorem render_expands_introduced_placeholder :
  occurrences (Template.placeholder "b") "{a}" = 0
  /\ Template.render "{a}" [("a", "{b}")] true = Normal "{b}"
  /\ Template.render "{a}" [("a", "{b}"); ("b", "X")] true = Normal "X"
  /\ Template.renderObject "<li>{key}={value}" [("{value}", "7.00")] false
     = Normal "<li>7.00=7.00".
Proof. repeat split; vm_compute; reflexivity. Qed.

(** ** Enumeration *)

Lemma in_insert_index {V} n (e : str * V) l x :
  In x (insert_index n e l) -> (n, e) = x \/ In x l.
Proof.
  induction l as [|[m e'] l IH]; simpl; [tauto|].
  destruct (n <? m)%Z; simpl; [tauto|]. intros [H|H]; [tauto|].
  apply IH in H. tauto.
Qed.

Lemma in_for_in {V} (o : object V) e : In e (for_in o) -> In e o.
Proof.
  unfold for_in. intros H. apply in_app_or in H as [H|H].
  - apply in_map_iff in H as [[n e'] [<- H]]. simpl.
    induction o as [|[k v] o IH]; simpl in *; [contradiction|].
    destruct (array_index k); [|right; now apply IH].
    apply in_insert_index in H as [H|H]; [left; congruence|right; now apply IH].
  - now apply filter_In in H.
Qed.

Lemma in_set {V} (o : object V) k v e : In e (set o k v) -> (k, v) = e \/ In e o.
Proof.
  induction o as [|[k' v'] o IH]; simpl; [tauto|].
  destruct (str_eqb k k') eqn:E; simpl.
  - apply str_eqb_eq in E. subst k'. tauto.
  - intros [H|H]; [tauto|]. apply IH in H. tauto.
Qed.


Lemma set_keys {V} (o : object V) k v k' :
  In k' (List.map fst (set o k v)) <-> k' = k \/ In k' (List.map fst o).
Proof.
  induction o as [|[k0 v0] o IH]; simpl.
  - intuition.
  - destruct (str_eqb k k0) eqn:E; simpl.
    + apply str_eqb_eq in E. subst k0. intuition.
    + rewrite IH. intuition.
Qed.

Lemma set_NoDup {V} (o : object V) k v :
  NoDup (List.map fst o) -> NoDup (List.map fst (set o k v)).
Proof.
  induction o as [|[k0 v0] o IH]; intros H; simpl.
  - constructor; [intros []|constructor].
  - inversion H as [|? ? Hn Ho]; subst.
    destruct (str_eqb k k0) eqn:E; simpl.
    + now constructor.
    + constructor; [|now apply IH].
      rewrite set_keys. intros [->|Hin]; [|contradiction].
      now rewrite str_eqb_refl in E.
Qed.

Lemma get_keys {V} (o : object V) k :
  In k (List.map fst o) <-> exists v, get o k = Some v.
Proof.
  induction o as [|[k0 v0] o IH]; simpl.
  - split; [intros []|intros [v H]; discriminate].
  - destruct (str_eqb k k0) eqn:E.
    + apply str_eqb_eq in E. subst. split; [now exists v0|now left].
    + apply str_eqb_neq in E. rewrite <- IH. split; [|tauto].
      intros [H|H]; [now subst|exact H].
Qed.


(** ** Highlight and the orchestrator *)

Lemma update_nth_error {A} (l : list A) n f m :
  nth_error (Dom.update l n f) m
  = if Nat.eqb n m then option_map f (nth_error l m) else nth_error l m.
Proof.
  revert n m; induction l as [|x l IH]; intros [|n] [|m]; simpl; try reflexivity.
  - now destruct (Nat.eqb _ _).
  - apply IH.
Qed.

Lemma classList_add_In c r : In c (Dom.classList (Dom.classList_add c r)).
Proof.
  unfold Dom.classList_add; simpl.
  destruct (existsb (str_eqb c) (Dom.classList r)) eqn:E.
  - apply existsb_exists in E as [x [Hx E]]. apply str_eqb_eq in E. now subst.
  - apply in_or_app. right. now left.
Qed.

Lemma classList_add_keeps c x r :
  In x (Dom.classList r) -> In x (Dom.classList (Dom.classList_add c r)).
Proof.
  unfold Dom.classList_add; simpl. intros H.
  destruct (existsb _ _); [exact H|]. apply in_or_app. now left.
Qed.

Lemma highlight_keeps row d n c :
  has_class d n c -> has_class (Highlight.highlight row d) n c.
Proof.
  intros [r [Hr Hc]]. unfold has_class, Highlight.highlight; simpl.
  rewrite update_nth_error. destruct (Nat.eqb row n).
  - rewrite Hr. simpl. eexists; split; [reflexivity|]. now apply classList_add_keeps.
  - now exists r.
Qed.

Lemma highlight_adds row d :
  row < List.length (Dom.rows d) ->
  has_class (Highlight.highlight row d) row Highlight.HIGHLIGHT_CLASS.
Proof.
  intros H. unfold has_class, Highlight.highlight; simpl.
  rewrite update_nth_error, Nat.eqb_refl.
  destruct (nth_error (Dom.rows d) row) as [r|] eqn:E.
  - simpl. eexists; split; [reflexivity|]. apply classList_add_In.
  - apply nth_error_None in E. lia.
Qed.

Lemma update_length {A} (l : list A) n f : List.length (Dom.update l n f) = List.length l.
Proof.
  revert n; induction l as [|x l IH]; intros [|n]; simpl; try reflexivity.
  now rewrite IH.
Qed.

Lemma highlight_visit (l : list Dom.node) :
  forall d, exists d1,
    visit l (fun row d => (Normal tt, Highlight.highlight row d)) d = (Normal tt, d1)
    /\ List.length (Dom.rows d1) = List.length (Dom.rows d)
    /\ Dom.elements d1 = Dom.elements d
    /\ (forall n c, has_class d n c -> has_class d1 n c)
    /\ (forall n, In n l -> n < List.length (Dom.rows d) ->
                  has_class d1 n Highlight.HIGHLIGHT_CLASS).
Proof.
  induction l as [|x l IH]; intros d; simpl.
  - exists d. repeat split; auto. intros n [].
  - destruct (IH (Highlight.highlight x d)) as [d1 [H1 [H2 [H3 [H4 H5]]]]].
    exists d1. split; [exact H1|]. split.
    { rewrite H2. unfold Highlight.highlight; simpl. apply update_length. }
    split; [now rewrite H3|]. split.
    { intros n c H. now apply H4, highlight_keeps. }
    intros n [->|Hn] Hlt.
    + now apply H4, highlight_adds.
    + apply H5; [exact Hn|]. unfold Highlight.highlight; simpl. now rewrite update_length.
Qed.

Lemma select_from_bound path l :
  forall i n, In n (Xpath.select_from path i l) -> i <= n < i + List.length l.
Proof.
  induction l as [|r l IH]; intros i n H; simpl in *; [contradiction|].
  destruct (Xpath.row_matches path r).
  - destruct H as [<-|H]; [lia|]. apply IH in H. lia.
  - apply IH in H. lia.
Qed.

Lemma dispatch_app rows hs1 hs2 d :
  AdminHelper.dispatch rows (hs1 ++ hs2) d
  = and_then (AdminHelper.dispatch rows hs1 d) (AdminHelper.dispatch rows hs2).
Proof.
  revert d; induction hs1 as [|h hs1 IH]; intros d; simpl; [reflexivity|].
  destruct (AdminHelper.run h) as [f|]; [|apply IH].
  rewrite and_then_assoc. apply and_then_ext. exact IH.
Qed.

Lemma dispatch_skips rows hs d :
  AdminHelper.dispatch rows hs d
  = AdminHelper.dispatch rows
      (filter (fun h => match AdminHelper.run h with Some _ => true | None => false end) hs) d.
Proof.
  revert d; induction hs as [|h hs IH]; intros d; simpl; [reflexivity|].
  destruct (AdminHelper.run h) as [f|] eqn:E; simpl; [|apply IH].
  rewrite E. apply and_then_ext. exact IH.
Qed.

(** C6. The orchestrator evaluates the row query once, on the document it
    is given, and hands that one snapshot to the hooks one after the other in
    list order; hooks without a [run] function are passed over; each hook
    works on the document as the hook before it left it, so after [Highlight]
    the next hook finds the highlight class on every row of the snapshot. *)
Theorem orchestrator_shares_snapshot_in_order :
  forall (hooks more : list AdminHelper.hook) (d : Dom.document)
         (f1 f2 : QueryResult.t Dom.node -> Dom.document -> completion unit * Dom.document),
    let rows := Xpath.findAll AdminHelper.ADMIN_ROWS d in
    AdminHelper.init hooks d = AdminHelper.dispatch rows hooks d
    /\ AdminHelper.init (hooks ++ more) d
       = and_then (AdminHelper.dispatch rows hooks d) (AdminHelper.dispatch rows more)
    /\ AdminHelper.init hooks d
       = AdminHelper.dispatch rows
           (filter (fun h => match AdminHelper.run h with Some _ => true | None => false end)
              hooks) d
    /\ AdminHelper.init
         [ {| AdminHelper.run := Some f1 |}; {| AdminHelper.run := None |};
           {| AdminHelper.run := Some f2 |} ] d
       = and_then (f1 rows d) (f2 rows)
    /\ exists d1,
         Highlight.run rows d = (Normal tt, d1)
         /\ AdminHelper.init [AdminHelper.Highlight; {| AdminHelper.run := Some f2 |}] d
            = f2 rows d1
         /\ forall n, In n (XPathResult.snapshot (QueryResult.result rows)) ->
                      has_class d1 n Highlight.HIGHLIGHT_CLASS.
Proof.
  intros hooks more d f1 f2 rows.
  split; [reflexivity|].
  split; [apply dispatch_app|].
  split; [apply dispatch_skips|].
  split.
  { unfold AdminHelper.init, AdminHelper._iterateRows; simpl. fold rows.
    apply and_then_ext. intros d'. apply and_then_return. }
  destruct (highlight_visit (XPathResult.snapshot (QueryResult.result rows)) d)
    as [d1 [H1 [_ [_ [_ H5]]]]].
  assert (Hrun : Highlight.run rows d = (Normal tt, d1)).
  { unfold Highlight.run. rewrite forEach_visit. exact H1. }
  exists d1. split; [exact Hrun|]. split.
  - unfold AdminHelper.init, AdminHelper._iterateRows; simpl. fold rows.
    rewrite Hrun. simpl. apply and_then_return.
  - intros n Hn. apply H5; [exact Hn|].
    simpl in Hn. apply select_from_bound in Hn. lia.
Qed.

(** ** Summarize: rendering *)

Lemma insertBefore_spec e i (l : list Dom.element) :
  forall a, find (fun x => str_eqb (Dom.id x) i) l = Some a ->
    exists pre post,
      l = pre ++ a :: post
      /\ Forall (fun x => Dom.id x <> i) pre
      /\ Dom.insertBefore e i l = pre ++ e :: a :: post.
Proof.
  induction l as [|x l IH]; intros a H; simpl in *; [discriminate|].
  destruct (str_eqb (Dom.id x) i) eqn:E.
  - inversion H; subst. exists [], l. repeat split. constructor.
  - destruct (IH _ H) as [pre [post [-> [Hpre Hins]]]].
    exists (x :: pre), post. repeat split.
    + constructor; [now apply str_eqb_neq|exact Hpre].
    + simpl. now rewrite Hins.
Qed.

(** C4. The render step returns and leaves the document as it is when the
    anchor is missing or the totals are empty; with an anchor and totals it
    puts the summary element directly before the anchor, the first element
    with the target id, when the markup can be built, and throws, leaving the
    document, when it cannot.  That happens on a page with the anchor and one
    admin row whose label is [constructor]: the total under that label is a
    text, formatting it throws a TypeError, nothing is inserted. *)
Theorem render_throws_for_inherited_label :
  (forall (totals : object Summarize.total) (d : Dom.document),
      Dom.getElementById d Summarize.TARGET_OUTPUT = None \/ totals = [] ->
      Summarize._render totals d = (Normal tt, d))
  /\ (forall (totals : object Summarize.total) (d : Dom.document) anchor,
         Dom.getElementById d Summarize.TARGET_OUTPUT = Some anchor -> totals <> [] ->
         (forall markup,
             Summarize.summary_markup totals = Normal markup ->
             exists pre post,
               Dom.elements d = pre ++ anchor :: post
               /\ Forall (fun e => Dom.id e <> Summarize.TARGET_OUTPUT) pre
               /\ Summarize._render totals d
                  = (Normal tt,
                     {| Dom.rows := Dom.rows d;
                        Dom.elements :=
                          pre ++ {| Dom.id := Summarize.OUTPUT_ID; Dom.innerHTML := markup |}
                              :: anchor :: post |}))
         /\ (forall e, Summarize.summary_markup totals = Throw e ->
                       Summarize._render totals d = (Throw e, d)))
  /\ (let d := Sample.page_constructor in
      let rows := Xpath.findAll AdminHelper.ADMIN_ROWS d in
      let totals :=
        [("constructor",
          Summarize.Str [Summarize.FunctionText "constructor";
                         Summarize.NumberText (Number.to_number "1.5")])] in
      Dom.getElementById d Summarize.TARGET_OUTPUT = Some Sample.anchor
      /\ Summarize.aggregate rows d = (Normal tt, totals)
      /\ Summarize._shouldRender totals = true
      /\ Summarize._formatTotals totals None = Throw TypeError
      /\ Summarize._render totals d = (Throw TypeError, d)
      /\ Summarize.run rows d = (Throw TypeError, d)
      /\ AdminHelper.main d = (Throw TypeError, snd (Highlight.run rows d))).
Proof.
  split; [|split].
  - intros totals d [H|H]; unfold Summarize._render.
    + now rewrite H.
    + subst totals. now destruct (Dom.getElementById d Summarize.TARGET_OUTPUT).
  - intros totals d anchor Ha Ht.
    assert (Hs : Summarize._shouldRender totals = true).
    { unfold Summarize._shouldRender. destruct (for_in totals) eqn:E; [|reflexivity].
      exfalso. apply Ht. now apply for_in_nil_iff. }
    split.
    + intros markup Hm. unfold Summarize._render. rewrite Ha, Hs, Hm.
      destruct (insertBefore_spec
                  {| Dom.id := Summarize.OUTPUT_ID; Dom.innerHTML := markup |} _ _ Ha)
        as [pre [post [Hl [Hpre Hins]]]].
      exists pre, post. repeat split; [exact Hl|exact Hpre|]. now rewrite Hins.
    + intros e He. unfold Summarize._render. now rewrite Ha, Hs, He.
  - repeat split; vm_compute; reflexivity.
Qed.

(** ** Summarize: aggregation *)

Lemma aggregate_visit rows d :
  Summarize.aggregate rows d
  = visit (XPathResult.snapshot (QueryResult.result rows)) (Summarize.add_row d) [].
Proof. apply forEach_visit. Qed.

(** The callback returns, or throws a TypeError and leaves the totals. *)
Lemma add_row_cases d x totals :
  (exists totals', Summarize.add_row d x totals = (Normal tt, totals'))
  \/ Summarize.add_row d x totals = (Throw TypeError, totals).
Proof.
  unfold Summarize.add_row.
  destruct (Xpath.find Summarize.NOTE_CELL d x) as [noteNode|]; [|now right].
  destruct (Summarize.match_label (Dom.textContent noteNode)) as [l|];
    [|left; now eexists].
  destruct (Xpath.find Summarize.HOUR_CELL d x) as [hourNode|]; [|now right].
  left. now eexists.
Qed.

(** A row without a notes cell makes the pass throw, wherever it stands. *)
Lemma visit_absent_note_throws d n (l : list Dom.node) :
  In n l -> Xpath.find Summarize.NOTE_CELL d n = None ->
  forall totals, fst (visit l (Summarize.add_row d) totals) = Throw TypeError.
Proof.
  intros Hin Hn. induction l as [|x l IH]; intros totals; simpl; [contradiction|].
  destruct (add_row_cases d x totals) as [[t E]|E]; rewrite E; simpl; [|reflexivity].
  destruct Hin as [->|Hin]; [|now apply IH].
  unfold Summarize.add_row in E. rewrite Hn in E. discriminate.
Qed.

(** C1. On a page with an admin row that has no notes cell the summarizer
    does not skip the row: reading the text of the missing cell throws, the
    pass stops and nothing is rendered; the same happens for a labelled note
    without an hours cell, while a note without label is passed over before
    the hours cell is looked at. *)
Theorem absent_cell_throws_TypeError :
  Summarize.run (Xpath.findAll AdminHelper.ADMIN_ROWS Sample.page_without_note) Sample.page_without_note
  = (Throw TypeError, Sample.page_without_note)
  /\ AdminHelper.main Sample.page_without_note
     = (Throw TypeError,
        snd (Highlight.run (Xpath.findAll AdminHelper.ADMIN_ROWS Sample.page_without_note)
               Sample.page_without_note))
  /\ Summarize.run (Xpath.findAll AdminHelper.ADMIN_ROWS Sample.page_without_hours) Sample.page_without_hours
     = (Throw TypeError, Sample.page_without_hours)
  /\ Summarize.run (Xpath.findAll AdminHelper.ADMIN_ROWS Sample.page_plain_note) Sample.page_plain_note
     = (Normal tt, Sample.page_plain_note).
Proof. repeat split; vm_compute; reflexivity. Qed.

(** C3. For the entries A: x, B: y, A: z with 1.5, 2.25 and 0.75 hours the
    totals are A = 2.25 and B = 2.25, formatted as 2.25 each, and the text of
    the rendered list has "A: 2.25" once and "B: 2.25" once. *)
Theorem totals_of_three_entries :
  let d := Sample.timesheet in
  let totals :=
    [("A", Summarize.Num (Number.to_number "2.25"));
     ("B", Summarize.Num (Number.to_number "2.25"))] in
  let markup :=
    "<ul><li>A: <span class=" ++ [dquote] ++ "admin_helper_hours" ++ [dquote] ++ ">2.25</span>"
    ++ "<li>B: <span class=" ++ [dquote] ++ "admin_helper_hours" ++ [dquote] ++ ">2.25</span></ul>" in
  Summarize.aggregate (Xpath.findAll AdminHelper.ADMIN_ROWS d) d = (Normal tt, totals)
  /\ Number.add (Number.to_number "1.5") (Number.to_number "0.75") = Number.to_number "2.25"
  /\ Summarize._formatTotals totals None = Normal [("A", "2.25"); ("B", "2.25")]
  /\ Summarize._formatTotals totals (Some 2%Z) = Normal [("A", "2.25"); ("B", "2.25")]
  /\ Summarize.summary_markup totals = Normal markup
  /\ text_of_markup false markup = "A: 2.25B: 2.25"
  /\ occurrences "A: 2.25" (text_of_markup false markup) = 1
  /\ occurrences "B: 2.25" (text_of_markup false markup) = 1
  /\ Summarize.run (Xpath.findAll AdminHelper.ADMIN_ROWS d) d
     = (Normal tt,
        {| Dom.rows := Dom.rows d;
           Dom.elements :=
             [Sample.header;
              {| Dom.id := Summarize.OUTPUT_ID; Dom.innerHTML := markup |};
              Sample.anchor] |}).
Proof. repeat split; vm_compute; reflexivity. Qed.

(** C5. Hours text that is no number coerces to NaN, and under an ordinary
    label the total is NaN from then on.  Under the label [constructor] it
    is not: what the first row reads there is the function every object
    inherits, so no zero is stored, the sum is a text made of the source of
    that function and of the hours that follow, and the render step then
    throws a TypeError on the page, which has the anchor. *)
Theorem inherited_label_total_is_text :
  numeric_text "n/a" = false
  /\ Number.to_number "n/a" = Number.NaN
  /\ Summarize.aggregate (Xpath.findAll AdminHelper.ADMIN_ROWS Sample.page_bad_hours)
       Sample.page_bad_hours
     = (Normal tt, [("A", Summarize.Num Number.NaN)])
  /\ (let d := Sample.page_constructor_bad_hours in
      let rows := Xpath.findAll AdminHelper.ADMIN_ROWS d in
      let totals :=
        [("constructor",
          Summarize.Str [Summarize.FunctionText "constructor";
                         Summarize.NumberText Number.NaN;
                         Summarize.NumberText (Number.to_number "2")])] in
      row_label d 0 = Some "constructor"
      /\ read (@nil (str * Summarize.total)) "constructor" = Method "constructor"
      /\ Summarize.add_row d 0 []
         = (Normal tt,
            [("constructor",
              Summarize.Str [Summarize.FunctionText "constructor";
                             Summarize.NumberText Number.NaN])])
      /\ Summarize.aggregate rows d = (Normal tt, totals)
      /\ get totals "constructor" <> Some (Summarize.Num Number.NaN)
      /\ Summarize.run rows d = (Throw TypeError, d)).
Proof. repeat split; try (vm_compute; reflexivity). vm_compute. discriminate. Qed.

(** ** The global replacement *)

Lemma skipn_app_length {A} (a b : list A) : skipn (List.length a) (a ++ b) = b.
Proof. induction a; simpl; auto. Qed.

Section Scan.

Variables pat repl : str.
Hypothesis pat_not_nil : pat <> [].

Lemma scan_skip x : forall before s after,
  replace_scan pat repl before (x ++ s) after (List.length x)
  = replace_scan pat repl (before ++ x) s after 0.
Proof.
  induction x as [|c x IH]; intros before s after; simpl.
  - now rewrite app_nil_r.
  - rewrite IH, <- app_assoc. reflexivity.
Qed.

Lemma scan_match before r after :
  replace_scan pat repl before (pat ++ r) after 0
  = GetSubstitution pat before (r ++ after) repl
      ++ replace_scan pat repl (before ++ pat) r after 0.
Proof.
  pose proof (starts_with_app pat r) as E.
  pose proof (skipn_app_length pat r) as K.
  pose proof (scan_skip (tl pat) (before ++ firstn 1 pat) r after) as Sk.
  destruct pat as [|c p]; [contradiction|].
  simpl app in *. simpl tl in Sk. simpl firstn in Sk.
  cbn [replace_scan]. rewrite E, K.
  replace (List.length (c :: p) - 1) with (List.length p) by (simpl; lia).
  rewrite Sk, <- app_assoc. reflexivity.
Qed.

Lemma scan_nomatch before c r after :
  starts_with pat (c :: r) = false ->
  replace_scan pat repl before (c :: r) after 0
  = c :: replace_scan pat repl (before ++ [c]) r after 0.
Proof. intros H. cbn [replace_scan]. now rewrite H. Qed.

End Scan.

(** ** Replacement patterns *)

Section Substitution.

Variables matched before after : str.

Local Abbreviation expand := (GetSubstitution matched before after).

Lemma gs_literal c r : Ascii.eqb c "$" = false -> expand (c :: r) = c :: expand r.
Proof. intros H. simpl. now rewrite H. Qed.

(** A replacement text without dollar sign is inserted as it is. *)
Lemma gs_plain r : ~ In "$"%char r -> expand r = r.
Proof.
  induction r as [|c r IH]; intros H; [reflexivity|].
  rewrite gs_literal.
  - rewrite IH; [reflexivity|]. intros Hin. apply H. now right.
  - apply Ascii.eqb_neq. intros ->. apply H. now left.
Qed.

End Substitution.

(** ** Patterns of literal keys *)

Lemma existsb_eqb_false c (l : str) x :
  existsb (Ascii.eqb c) l = false -> In x l -> Ascii.eqb c x = false.
Proof.
  intros H Hx. destruct (Ascii.eqb c x) eqn:E; [|reflexivity].
  rewrite <- H. symmetry. apply existsb_exists. now exists x.
Qed.

Lemma braced_quantifier_head c r : RegExp.braced_quantifier (c :: r) = true -> c = "{"%char.
Proof. destruct c as [[] [] [] [] [] [] [] []]; try discriminate. reflexivity. Qed.

Lemma plain_char_facts c :
  syntax_char c = false ->
  Ascii.eqb c "|" = false /\ Ascii.eqb c "." = false /\ RegExp.other_syntax c = false
  /\ forall r, RegExp.braced_quantifier (c :: r) = false.
Proof.
  intros H. unfold syntax_char in H.
  assert (Hc : forall x, In x "\^$.*+?()[]{}|" -> Ascii.eqb c x = false)
    by (intros x; now apply existsb_eqb_false).
  split; [apply Hc; cbn; tauto|]. split; [apply Hc; cbn; tauto|]. split.
  - unfold RegExp.other_syntax.
    destruct (existsb (Ascii.eqb c) "\^$*+?()[") eqn:E; [|reflexivity].
    apply existsb_exists in E as [x [Hx E]]. rewrite Hc in E; [discriminate|].
    cbn in Hx. cbn. tauto.
  - intros r. destruct (RegExp.braced_quantifier (c :: r)) eqn:E; [|reflexivity].
    apply braced_quantifier_head in E. subst c.
    specialize (Hc "{"%char). rewrite Ascii.eqb_refl in Hc. discriminate Hc. cbn. tauto.
Qed.

Lemma parse_plain_chars k :
  forallb (fun c => negb (syntax_char c)) k = true ->
  RegExp.parse (k ++ "}") true = Normal [List.map RegExp.Char (k ++ "}")].
Proof.
  induction k as [|c k IH]; intros H; [reflexivity|].
  cbn [forallb] in H. apply andb_true_iff in H as [Hc H].
  apply negb_true_iff in Hc.
  destruct (plain_char_facts _ Hc) as [H1 [H2 [H3 H4]]].
  cbn [app RegExp.parse]. rewrite H1, H4, H3, H2, (IH H). reflexivity.
Qed.

(** The pattern of a literal key is the text of its placeholder. *)
Lemma new_literal k :
  literal_key k = true ->
  RegExp.new (Template.placeholder k) = Normal [List.map RegExp.Char (Template.placeholder k)].
Proof.
  unfold literal_key. intros H. apply andb_true_iff in H as [H Hd].
  unfold RegExp.new, Template.placeholder. cbn [app RegExp.parse].
  change (Ascii.eqb "{" "|") with false. cbn iota.
  assert (RegExp.braced_quantifier ("{"%char :: k ++ "}") = false) as ->.
  { destruct k as [|c r]; [reflexivity|]. cbn [app RegExp.braced_quantifier].
    apply negb_true_iff in Hd. now rewrite Hd. }
  change (RegExp.other_syntax "{") with false.
  change (Ascii.eqb "{" ".") with false. cbn iota.
  rewrite (parse_plain_chars _ H). reflexivity.
Qed.

Lemma alternative_matches_literal (pat s : str) :
  RegExp.alternative_matches (List.map RegExp.Char pat) s = starts_with pat s.
Proof.
  revert s; induction pat as [|a pat IH]; intros s; [reflexivity|].
  destruct s as [|c s]; [reflexivity|]. simpl. now rewrite IH.
Qed.

Lemma match_at_literal (pat s : str) :
  RegExp.match_at [List.map RegExp.Char pat] s
  = if starts_with pat s then Some (List.length pat) else None.
Proof.
  cbn [RegExp.match_at]. rewrite alternative_matches_literal, length_map.
  reflexivity.
Qed.

Lemma firstn_starts_with (pat s : str) :
  starts_with pat s = true -> firstn (List.length pat) s = pat.
Proof.
  intros H. destruct (starts_with_split _ _ H) as [r ->].
  rewrite firstn_app, Nat.sub_diag, firstn_all. cbn [firstn]. apply app_nil_r.
Qed.

(** For a pattern that is one alternative of characters the scan is the
    scan for that text. *)
Lemma scan_literal (pat repl : str) :
  pat <> [] ->
  forall s before skip,
    RegExp.scan [List.map RegExp.Char pat] repl before s skip
    = replace_scan pat repl before s [] skip.
Proof.
  intros Hp. induction s as [|c r IH]; intros before skip.
  - cbn [RegExp.scan replace_scan]. rewrite match_at_literal.
    destruct pat; [contradiction|]. now destruct skip.
  - cbn [RegExp.scan replace_scan]. destruct skip as [|k]; [|apply IH].
    rewrite match_at_literal.
    destruct (starts_with pat (c :: r)) eqn:E.
    + pose proof (firstn_starts_with _ _ E) as F.
      destruct pat as [|p0 p]; [contradiction|].
      cbn [List.length] in *. rewrite F, app_nil_r, IH.
      replace (S (List.length p) - 1) with (List.length p) by lia.
      reflexivity.
    + now rewrite IH.
Qed.

Lemma replace_literal (pat repl s : str) :
  pat <> [] -> RegExp.replace [List.map RegExp.Char pat] repl s = replace_all pat repl s.
Proof. intros Hp. unfold RegExp.replace, replace_all. now apply scan_literal. Qed.

(** ** Escaping *)

Ltac not_in_literal :=
  let H := fresh in
  intros H; cbn [In] in H;
  repeat (destruct H as [H|H]; [discriminate H|]); exact H.

Lemma replace_char c R : ~ In "$"%char R ->
  forall s before after,
    replace_scan [c] R before s after 0
    = flat_map (fun x => if Ascii.eqb c x then R else [x]) s.
Proof.
  intros HR. induction s as [|x s IH]; intros before after; [reflexivity|].
  cbn [replace_scan starts_with flat_map List.length Nat.sub].
  destruct (Ascii.eqb c x); cbn [andb].
  - rewrite gs_plain by exact HR. now rewrite IH.
  - cbn [app]. now rewrite IH.
Qed.

Lemma escape_app a b : Template._escape (a ++ b) = Template._escape a ++ Template._escape b.
Proof.
  unfold Template._escape, replace_all.
  rewrite !replace_char by not_in_literal.
  now rewrite !flat_map_app.
Qed.

Lemma escape_char x : Template._escape [x] = entity_of x.
Proof. destruct x as [[] [] [] [] [] [] [] []]; vm_compute; reflexivity. Qed.

Lemma escape_flat_map v : Template._escape v = flat_map entity_of v.
Proof.
  induction v as [|x v IH]; [reflexivity|].
  change (x :: v) with ([x] ++ v). rewrite escape_app, escape_char, IH. reflexivity.
Qed.

Lemma entity_of_plain x : escapable x = false -> entity_of x = [x] /\ x <> "&"%char.
Proof.
  destruct x as [[] [] [] [] [] [] [] []]; vm_compute; intros H;
    try discriminate H; (split; [reflexivity|discriminate]).
Qed.

Lemma escapable_cases x :
  escapable x = true ->
  x = "&"%char \/ x = "<"%char \/ x = ">"%char \/ x = "'"%char \/ x = "/"%char \/ x = dquote.
Proof.
  destruct x as [[] [] [] [] [] [] [] []]; vm_compute; intros H;
    try discriminate H; tauto.
Qed.

Lemma entity_length x : escapable x = true -> 4 <= List.length (entity_of x).
Proof.
  intros H. apply escapable_cases in H.
  repeat (destruct H as [H|H]; [subst x; vm_compute; lia|]).
  subst x. vm_compute. lia.
Qed.

(** The entities and the characters left alone form a prefix code. *)
Lemma entity_prefix_code x y A B :
  entity_of x ++ A = entity_of y ++ B -> x = y /\ A = B.
Proof.
  intros H.
  destruct (escapable x) eqn:Ex; destruct (escapable y) eqn:Ey.
  - apply escapable_cases in Ex, Ey.
    repeat (destruct Ex as [Ex|Ex]);
      repeat (destruct Ey as [Ey|Ey]);
      subst x y; vm_compute in H;
      first [discriminate H | inversion H; split; reflexivity].
  - destruct (entity_of_plain _ Ey) as [Hy Hn]. rewrite Hy in H.
    apply escapable_cases in Ex.
    repeat (destruct Ex as [Ex|Ex]);
      subst x; vm_compute in H; inversion H; subst; contradiction.
  - destruct (entity_of_plain _ Ex) as [Hx Hn]. rewrite Hx in H.
    apply escapable_cases in Ey.
    repeat (destruct Ey as [Ey|Ey]);
      subst y; vm_compute in H; inversion H; subst; contradiction.
  - destruct (entity_of_plain _ Ex) as [Hx _].
    destruct (entity_of_plain _ Ey) as [Hy _].
    rewrite Hx, Hy in H. inversion H. now split.
Qed.

Lemma flat_map_entity_length s :
  List.length s <= List.length (flat_map entity_of s).
Proof.
  induction s as [|x s IH]; [simpl; lia|].
  cbn [flat_map]. rewrite length_app. simpl List.length.
  destruct (escapable x) eqn:E.
  - pose proof (entity_length _ E). lia.
  - destruct (entity_of_plain _ E) as [-> _]. simpl. lia.
Qed.

(** X1. Escaping loses nothing and works character by character: the
    escaped text of a concatenation is the concatenation of the escaped
    texts, and two texts with the same escaped text are the same text. *)
Theorem escape_injective_homomorphism :
  (forall a b, Template._escape (a ++ b) = Template._escape a ++ Template._escape b)
  /\ (forall a b, Template._escape a = Template._escape b -> a = b).
Proof.
  split; [exact escape_app|].
  intros a b. rewrite !escape_flat_map.
  revert b; induction a as [|x a IH]; intros [|y b] H.
  - reflexivity.
  - exfalso. cbn [flat_map] in H.
    destruct (escapable y) eqn:E.
    + pose proof (entity_length _ E) as L.
      apply (f_equal (@List.length _)) in H. rewrite length_app in H. simpl in H. lia.
    + destruct (entity_of_plain _ E) as [Hy _]. rewrite Hy in H. discriminate.
  - exfalso. cbn [flat_map] in H.
    destruct (escapable x) eqn:E.
    + pose proof (entity_length _ E) as L.
      apply (f_equal (@List.length _)) in H. rewrite length_app in H. simpl in H. lia.
    + destruct (entity_of_plain _ E) as [Hx _]. rewrite Hx in H. discriminate.
  - cbn [flat_map] in H. apply entity_prefix_code in H as [-> H].
    f_equal. now apply IH.
Qed.

Lemma escape_unchanged s :
  forallb (fun c => negb (escapable c)) s = true -> Template._escape s = s.
Proof.
  intros H. rewrite escape_flat_map.
  induction s as [|x s IH]; [reflexivity|].
  cbn [forallb] in H. apply andb_true_iff in H as [Hx H].
  apply negb_true_iff in Hx. destruct (entity_of_plain _ Hx) as [E _].
  cbn [flat_map]. rewrite E, IH by exact H. reflexivity.
Qed.

(** X2. Escaping leaves a text as it is exactly when the text has none of
    the six characters it rewrites; for data with such values only, rendering
    with and without escaping end the same way. *)
Theorem escape_identity_iff :
  (forall s, Template._escape s = s <-> forallb (fun c => negb (escapable c)) s = true)
  /\ (forall T (D : object str),
         Forall (fun e => forallb (fun c => negb (escapable c)) (snd e) = true) D ->
         Template.render T D false = Template.render T D true).
Proof.
  split.
  - intros s. split; [|apply escape_unchanged].
    rewrite escape_flat_map.
    induction s as [|x s IH]; intros H; [reflexivity|].
    cbn [flat_map] in H. cbn [forallb].
    destruct (escapable x) eqn:E.
    + exfalso. pose proof (entity_length _ E) as L.
      pose proof (flat_map_entity_length s) as L'.
      apply (f_equal (@List.length _)) in H. rewrite length_app in H. simpl in H. lia.
    + destruct (entity_of_plain _ E) as [Hx _]. rewrite Hx in H.
      inversion H as [H']. rewrite H'. simpl. now apply IH.
  - intros T D HD. unfold Template.render.
    assert (HF : Forall (fun e : str * str =>
                           forallb (fun c => negb (escapable c)) (snd e) = true) (for_in D)).
    { apply Forall_forall. intros e He. rewrite Forall_forall in HD.
      apply HD. now apply in_for_in. }
    revert T. induction HF as [|[k v] l Hv Hl IH]; intros T; [reflexivity|].
    cbn [Template.render_loop].
    destruct (hasOwnProperty D k) as [[]|e|]; cbn [bind]; try reflexivity; [|apply IH].
    unfold Template.render_key. simpl in Hv. rewrite (escape_unchanged _ Hv).
    destruct (RegExp.new (Template.placeholder k)); cbn [bind]; try reflexivity.
    apply IH.
Qed.

(** ** Rendering with literal keys *)

Lemma for_in_own {V} (D : object V) k v :
  In (k, v) (for_in D) -> exists v', get D k = Some v'.
Proof.
  intros H. apply in_for_in in H. apply get_keys.
  apply in_map_iff. now exists (k, v).
Qed.

Lemma hasOwnProperty_own {V} (D : object V) k :
  get D "hasOwnProperty" = None -> (exists v, get D k = Some v) ->
  hasOwnProperty D k = Normal true.
Proof. intros H [v Hv]. unfold hasOwnProperty. now rewrite H, Hv. Qed.

Lemma render_key_literal raw T k v :
  literal_key k = true ->
  Template.render_key raw T k v = Normal (Literal.render_key raw T (k, v)).
Proof.
  intros H. unfold Template.render_key, Literal.render_key.
  rewrite (new_literal _ H). cbn [bind].
  rewrite replace_literal by discriminate. reflexivity.
Qed.

Lemma render_loop_literal (D : object str) raw (l : list (str * str)) :
  get D "hasOwnProperty" = None ->
  Forall (fun e => literal_key (fst e) = true) l ->
  (forall k v, In (k, v) l -> exists v', get D k = Some v') ->
  forall T, Template.render_loop D raw l T = Normal (fold_left (Literal.render_key raw) l T).
Proof.
  intros Hh Hl. induction Hl as [|[k v] l Hk Hl IH]; intros Hown T; [reflexivity|].
  cbn [Template.render_loop fold_left].
  rewrite (@hasOwnProperty_own _ D k Hh (Hown k v ltac:(now left))). cbn [bind].
  rewrite render_key_literal by exact Hk. cbn [bind].
  apply IH. intros k' v' H. apply (Hown k' v'). now right.
Qed.

(** For data with literal keys [render] returns, and what it returns is
    made by one pass per key with the text of the placeholder as pattern. *)
Lemma render_literal T (D : object str) raw :
  literal_data D -> Template.render T D raw = Normal (Literal.render T D raw).
Proof.
  intros [_ [Hk Hh]]. unfold Template.render, Literal.render.
  apply render_loop_literal; [exact Hh| |apply for_in_own].
  apply Forall_forall. intros e He. rewrite Forall_forall in Hk.
  apply Hk. now apply in_for_in.
Qed.

Lemma literal_data_item (k v : str) : literal_data [("key", k); ("value", v)].
Proof.
  split; [|split; [repeat constructor|reflexivity]].
  repeat constructor; cbn [In]; intuition discriminate.
Qed.

Lemma fold_left_items {A} (f : A -> str) (l : list A) : forall acc,
  fold_left (fun output e => output ++ f e) l acc = acc ++ concat (List.map f l).
Proof.
  induction l as [|e l IH]; intros acc; simpl; [now rewrite app_nil_r|].
  now rewrite IH, <- app_assoc.
Qed.

(** [renderObject] returns for every object without a property named
    [hasOwnProperty]: the keys it renders with are [key] and [value]. *)
Lemma renderObject_literal T (F : object str) raw :
  get F "hasOwnProperty" = None ->
  Template.renderObject T F raw = Normal (Literal.renderObject T F raw).
Proof.
  intros Hh. unfold Template.renderObject, Literal.renderObject.
  assert (H : forall l acc,
            (forall k v, In (k, v) l -> exists v', get F k = Some v') ->
            Template.renderObject_loop T F raw l acc
            = Normal (fold_left
                        (fun output (e : str * str) =>
                           output ++ Literal.render T [("key", fst e); ("value", snd e)] raw)
                        l acc)).
  { induction l as [|[k v] l IH]; intros acc Hown; [reflexivity|].
    cbn [Template.renderObject_loop fold_left fst snd].
    rewrite (@hasOwnProperty_own _ F k Hh (Hown k v ltac:(now left))). cbn [bind].
    rewrite render_literal by apply literal_data_item. cbn [bind].
    apply IH. intros k' v' H. apply (Hown k' v'). now right. }
  apply H. apply for_in_own.
Qed.

(** ** Keys that are not literal *)

(** C2. Every value goes through [_escape], but a later key is read as a
    pattern and can undo it: with the data [{a: '&', '|amp;|': ''}] the pass
    for [a] writes the entity, the pattern of the second key has the
    alternatives [{], [amp;] and [}], and its pass deletes [amp;], so the
    rendered text is the bare ampersand of the value. *)
Theorem later_key_unescapes_value :
  let D := [("a", "&"); ("|amp;|", "")] in
  distinct_keys D
  /\ Template._escape "&" = "&amp;"
  /\ Template.render "{a}" [("a", "&")] false = Normal "&amp;"
  /\ RegExp.new (Template.placeholder "|amp;|")
     = Normal [[RegExp.Char "{"];
               [RegExp.Char "a"; RegExp.Char "m"; RegExp.Char "p"; RegExp.Char ";"];
               [RegExp.Char "}"]]
  /\ RegExp.replace
       [[RegExp.Char "{"];
        [RegExp.Char "a"; RegExp.Char "m"; RegExp.Char "p"; RegExp.Char ";"];
        [RegExp.Char "}"]] "" "&amp;" = "&"
  /\ Template.render "{a}" D false = Normal "&".
Proof.
  split; [|repeat split; vm_compute; reflexivity].
  repeat constructor; cbn [In]; intuition discriminate.
Qed.

(** C8. The key is the source of a pattern, not a text.  With the key
    [a.b] the dot matches any character, so the placeholder of the key [axb],
    which the data does not have, is replaced; with the key [0], the first
    key of every non-empty array, the pattern is a braced quantifier without
    anything to repeat, and [render] throws a SyntaxError; and a property
    named [hasOwnProperty] makes the guard of the loop throw a TypeError. *)
Theorem key_is_read_as_pattern :
  (get [("a.b", "<")] "axb" = None
   /\ occurrences (Template.placeholder "axb") "{axb}" = 1
   /\ Template.render "{axb}" [("a.b", "<")] false = Normal "&lt;"
   /\ occurrences (Template.placeholder "axb") "&lt;" = 0)
  /\ (RegExp.new (Template.placeholder "0") = Throw SyntaxError
      /\ Template.render "{0}" [("0", "x")] true = Throw SyntaxError
      /\ Template.render "no placeholder" [("0", "x"); ("1", "y")] false = Throw SyntaxError)
  /\ Template.render "{x}" [("x", "1"); ("hasOwnProperty", "2")] true = Throw TypeError.
Proof. repeat split; vm_compute; reflexivity. Qed.

(** C10. For the single label made of a dollar sign and a backquote the
    markup has two opening [<li>] for its one label: the escaped label is
    used as a replacement text, in which these two characters stand for the
    text before the placeholder, which is [<li>].  A closing tag does not
    occur. *)
Theorem two_items_for_one_label :
  let totals := [("$`", Summarize.Num Number.one)] in
  let markup :=
    "<ul><li><li>: <span class=" ++ [dquote] ++ "admin_helper_hours" ++ [dquote]
    ++ ">1.00</span></ul>" in
  Summarize.aggregate (Xpath.findAll AdminHelper.ADMIN_ROWS Sample.page_tick) Sample.page_tick
  = (Normal tt, totals)
  /\ Summarize._formatTotals totals None = Normal [("$`", "1.00")]
  /\ Template._escape "$`" = "$`"
  /\ Summarize.summary_markup totals = Normal markup
  /\ occurrences "<li>" markup = 2
  /\ List.length (for_in totals) = 1
  /\ occurrences "</li>" markup = 0
  /\ Summarize.run (Xpath.findAll AdminHelper.ADMIN_ROWS Sample.page_tick) Sample.page_tick
     = (Normal tt,
        {| Dom.rows := Dom.rows Sample.page_tick;
           Dom.elements :=
             [Sample.header;
              {| Dom.id := Summarize.OUTPUT_ID; Dom.innerHTML := markup |};
              Sample.anchor] |}).
Proof. repeat split; vm_compute; reflexivity. Qed.

(** ** Rendering templates of text and placeholders *)

Lemma scan_no_occurrence pat repl after : forall s before,
  occurrences pat s = 0 -> replace_scan pat repl before s after 0 = s.
Proof.
  induction s as [|c r IH]; intros before H; [reflexivity|].
  cbn [occurrences] in H.
  destruct (starts_with pat (c :: r)) eqn:E; [discriminate|].
  rewrite scan_nomatch by exact E. now rewrite IH.
Qed.


Lemma literal_key_braces k :
  literal_key k = true -> ~ In "{"%char k /\ ~ In "}"%char k.
Proof.
  unfold literal_key. intros H. apply andb_true_iff in H as [H _].
  rewrite forallb_forall in H.
  split; intros Hin; apply H in Hin; vm_compute in Hin; discriminate.
Qed.

Lemma literal_key_not_index k : literal_key k = true -> array_index k = None.
Proof.
  unfold literal_key, array_index. intros H. apply andb_true_iff in H as [_ H].
  destruct k as [|c r]; [reflexivity|].
  cbn [forallb]. apply negb_true_iff in H. now rewrite H.
Qed.

Lemma for_in_literal {V} (D : object V) :
  Forall (fun e => literal_key (fst e) = true) D -> for_in D = D.
Proof.
  intros H. unfold for_in.
  assert (index_entries D = []
          /\ filter (fun e : str * V =>
                       match array_index (fst e) with Some _ => false | None => true end) D
             = D) as [-> ->]; [|reflexivity].
  induction H as [|[k v] D Hk HD [IH1 IH2]]; [now split|].
  simpl in *. rewrite (literal_key_not_index _ Hk). split; [exact IH1|].
  now rewrite IH2.
Qed.

Section Copy.

Variables pat repl : str.
Hypothesis pat_not_nil : pat <> [].

(** Text without the first character of the pattern is copied. *)
Lemma scan_copy a : forall before s after,
  ~ In (hd "{"%char pat) a ->
  replace_scan pat repl before (a ++ s) after 0
  = a ++ replace_scan pat repl (before ++ a) s after 0.
Proof.
  induction a as [|c a IH]; intros before s after H; simpl app.
  - now rewrite app_nil_r.
  - rewrite scan_nomatch.
    + rewrite IH, <- app_assoc; [reflexivity|]. intros Hin. apply H. now right.
    + destruct pat as [|p0 p]; [contradiction|]. simpl in *.
      assert (Ascii.eqb p0 c = false) as ->; [|reflexivity].
      apply Ascii.eqb_neq. intros <-. apply H. now left.
Qed.

End Copy.

Lemma closing_brace_aligns r : forall (c k : str),
  ~ In "}"%char c -> ~ In "}"%char k ->
  starts_with (c ++ "}") (k ++ "}" ++ r) = true -> c = k.
Proof.
  induction c as [|u c IH]; intros k Hc Hk H.
  - destruct k as [|w k]; [reflexivity|]. simpl in H.
    apply andb_true_iff in H as [Hu _]. apply Ascii.eqb_eq in Hu. subst w.
    exfalso. apply Hk. now left.
  - destruct k as [|w k]; simpl in H.
    + apply andb_true_iff in H as [Hu _]. apply Ascii.eqb_eq in Hu. subst u.
      exfalso. apply Hc. now left.
    + apply andb_true_iff in H as [Hu H]. apply Ascii.eqb_eq in Hu. subst w.
      f_equal. apply IH; [| |exact H]; intros Hin; [apply Hc|apply Hk]; now right.
Qed.

Lemma entity_no_dollar_brace x c :
  In c (entity_of x) -> c = "$"%char \/ c = "{"%char -> c = x.
Proof.
  destruct (escapable x) eqn:E.
  - apply escapable_cases in E.
    repeat (destruct E as [E|E]);
      subst x; vm_compute; intros H [Hc|Hc]; subst c;
      repeat (destruct H as [H|H]; [discriminate H|]); contradiction.
  - destruct (entity_of_plain _ E) as [-> _]. intros [H|[]] _. now symmetry.
Qed.

Lemma escape_plain v : plain_value v -> plain_value (Template._escape v).
Proof.
  intros [H1 H2]. rewrite escape_flat_map.
  split; intros Hin; apply in_flat_map in Hin as [x [Hx Hc]];
    apply entity_no_dollar_brace in Hc; try tauto; subst x; contradiction.
Qed.

Lemma str_eqb_sym a b : str_eqb a b = str_eqb b a.
Proof.
  destruct (str_eqb a b) eqn:E1; destruct (str_eqb b a) eqn:E2; try reflexivity.
  - apply str_eqb_eq in E1. subst. now rewrite str_eqb_refl in E2.
  - apply str_eqb_eq in E2. subst. now rewrite str_eqb_refl in E1.
Qed.

Lemma flatten_cons t l : flatten (t :: l) = token_text t ++ flatten l.
Proof. reflexivity. Qed.

(** The pass for a key on a template of plain tokens fills the
    placeholders of that key with the value and copies everything else. *)
Lemma pass_tokens key value :
  ~ In "{"%char key -> ~ In "}"%char key -> plain_value value ->
  forall tpl before after,
    Forall plain_token tpl ->
    replace_scan (Template.placeholder key) value before (flatten tpl) after 0
    = flatten (List.map (fill_token key value) tpl).
Proof.
  intros K1 K2 [V1 V2].
  induction tpl as [|t tpl IH]; intros before after Htpl; [reflexivity|].
  inversion Htpl as [|? ? Ht Hrest]; subst.
  cbn [List.map]. rewrite !flatten_cons.
  destruct t as [s|k]; cbn [token_text fill_token].
  - rewrite scan_copy by (try discriminate; exact Ht).
    now rewrite IH.
  - destruct Ht as [H1 H2]. destruct (str_eqb k key) eqn:E.
    + apply str_eqb_eq in E. subst k.
      rewrite scan_match by discriminate.
      rewrite gs_plain by exact V1. cbn [token_text]. now rewrite IH.
    + apply str_eqb_neq in E. cbn [token_text].
      change (Template.placeholder k ++ flatten tpl)
        with ("{"%char :: (k ++ "}") ++ flatten tpl).
      rewrite scan_nomatch.
      * rewrite scan_copy.
        -- rewrite IH by exact Hrest. reflexivity.
        -- discriminate.
        -- simpl. intros H. apply in_app_or in H as [H|[H|[]]];
             [contradiction|discriminate].
      * destruct (starts_with (Template.placeholder key)
                    ("{"%char :: (k ++ "}") ++ flatten tpl)) eqn:S; [|reflexivity].
        exfalso. apply E. symmetry.
        cbn [starts_with Template.placeholder app] in S.
        apply andb_true_iff in S as [_ S]. rewrite <- app_assoc in S.
        eapply closing_brace_aligns; eassumption.
Qed.

Lemma fill_token_plain key value t :
  plain_value value -> plain_token t -> plain_token (fill_token key value t).
Proof.
  intros [_ V] Ht. destruct t as [s|k]; [exact Ht|].
  cbn [fill_token]. destruct (str_eqb k key); [exact V|exact Ht].
Qed.

Lemma render_tokens_list raw (l : list (str * str)) : forall tpl,
  Forall (fun e => literal_key (fst e) = true) l ->
  Forall (fun e => plain_value (snd e)) l ->
  Forall plain_token tpl ->
  fold_left (Literal.render_key raw) l (flatten tpl)
  = concat (List.map (instantiate raw l) tpl).
Proof.
  induction l as [|[k v] l IH]; intros tpl Hk Hv Htpl.
  - reflexivity.
  - inversion Hk as [|? ? K Hk']; inversion Hv as [|? ? V Hv']; subst.
    cbn [fst snd] in *. destruct (literal_key_braces _ K) as [K1 K2].
    set (value := if raw then v else Template._escape v).
    assert (Hval : plain_value value).
    { unfold value. destruct raw; [exact V|now apply escape_plain]. }
    cbn [fold_left]. unfold Literal.render_key at 2. fold value.
    unfold replace_all. rewrite (@pass_tokens k value K1 K2 Hval) by exact Htpl.
    rewrite IH; [|exact Hk'|exact Hv'|].
    + rewrite map_map. f_equal. apply map_ext_in. intros [s|k'] _; [reflexivity|].
      cbn [fill_token instantiate get]. rewrite (str_eqb_sym k' k).
      destruct (str_eqb k k'); reflexivity.
    + apply Forall_forall. intros t Ht. apply in_map_iff in Ht as [t0 [<- Ht0]].
      apply fill_token_plain; [exact Hval|]. rewrite Forall_forall in Htpl. now apply Htpl.
Qed.

(** X3. For data with literal keys, a template in which no placeholder of
    the data's keys occurs is returned as it is, whatever the values; in
    particular for empty data. *)
Theorem render_without_placeholders :
  forall (T : str) (D : object str) (raw : bool),
    literal_data D ->
    (forall k v, In (k, v) D -> occurrences (Template.placeholder k) T = 0) ->
    Template.render T D raw = Normal T.
Proof.
  intros T D raw HD H. rewrite render_literal by exact HD. f_equal.
  unfold Literal.render.
  assert (HF : forall e, In e (for_in D) ->
                         occurrences (Template.placeholder (fst e)) T = 0).
  { intros [k v] He. apply (H k v). now apply in_for_in. }
  induction (for_in D) as [|[k v] l IH]; [reflexivity|].
  cbn [fold_left]. unfold Literal.render_key at 2. unfold replace_all.
  rewrite scan_no_occurrence by (apply (HF (k, v)); now left).
  apply IH. intros e He. apply HF. now right.
Qed.

Lemma render_without_placeholders_witness :
  Template.render "hours: {y}" [("x", "<1>"); ("z", "$&")] false = Normal "hours: {y}".
Proof.
  apply render_without_placeholders.
  - split; [|split; [repeat constructor|reflexivity]].
    repeat constructor; cbn [In]; intuition discriminate.
  - intros k v [E|[E|[]]]; inversion E; reflexivity.
Defined.

(** X4. For a template made of literal text without opening brace and of
    placeholders, data with literal keys, and values that contain neither a
    dollar sign nor an opening brace, [render] returns the template with
    every placeholder of a key of the data replaced by the (escaped) value of
    the key, and every other placeholder left as written. *)
Theorem render_tokens :
  forall (tpl : list token) (D : object str) (raw : bool),
    literal_data D ->
    Forall (fun e => plain_value (snd e)) D ->
    Forall plain_token tpl ->
    Template.render (flatten tpl) D raw
    = Normal (concat (List.map (instantiate raw D) tpl)).
Proof.
  intros tpl D raw HD Hv Htpl. rewrite render_literal by exact HD. f_equal.
  destruct HD as [_ [Hk _]]. unfold Literal.render.
  rewrite for_in_literal by exact Hk. now apply render_tokens_list.
Qed.

Lemma render_tokens_witness :
  Template.render (flatten greeting_tokens) [("x", "<1>")] false
  = Normal (concat (List.map (instantiate false [("x", "<1>")]) greeting_tokens)).
Proof.
  apply render_tokens.
  - split; [|split; [repeat constructor|reflexivity]].
    repeat constructor; cbn [In]; intuition discriminate.
  - repeat constructor; not_in_literal.
  - repeat constructor; not_in_literal.
Defined.

(** X5. For a template of plain tokens and an object that has each key
    once, none of them [hasOwnProperty], and whose keys and values contain
    neither a dollar sign nor an opening brace, [renderObject] returns, entry
    after entry in enumeration order, the template with the [key] and [value]
    placeholders filled with the (escaped) key and value. *)
Theorem renderObject_tokens :
  forall (tpl : list token) (F : object str) (raw : bool),
    Forall plain_token tpl ->
    distinct_keys F ->
    get F "hasOwnProperty" = None ->
    Forall (fun e => plain_value (fst e) /\ plain_value (snd e)) F ->
    Template.renderObject (flatten tpl) F raw
    = Normal
        (concat (List.map
                   (fun e => concat (List.map
                                       (instantiate raw [("key", fst e); ("value", snd e)])
                                       tpl))
                   (for_in F))).
Proof.
  intros tpl F raw Htpl _ Hh HF. rewrite renderObject_literal by exact Hh. f_equal.
  unfold Literal.renderObject.
  rewrite fold_left_items. cbn [app]. f_equal.
  apply map_ext_in. intros e He. apply in_for_in in He.
  rewrite Forall_forall in HF. destruct (HF _ He) as [H1 H2].
  unfold Literal.render.
  change (for_in [("key", fst e); ("value", snd e)]) with [("key", fst e); ("value", snd e)].
  apply render_tokens_list; [repeat constructor| |exact Htpl].
  apply Forall_cons; [exact H1|apply Forall_cons; [exact H2|apply Forall_nil]].
Qed.

Lemma renderObject_tokens_witness :
  Template.renderObject (flatten item_tokens) [("B", "2.25"); ("7", "1.00")] false
  = Normal
      (concat (List.map
                 (fun e => concat (List.map
                                     (instantiate false [("key", fst e); ("value", snd e)])
                                     item_tokens))
                 (for_in [("B", "2.25"); ("7", "1.00")]))).
Proof.
  apply renderObject_tokens.
  - repeat constructor; not_in_literal.
  - repeat constructor; cbn [In]; intuition discriminate.
  - reflexivity.
  - repeat constructor; not_in_literal.
Defined.

(** ** The texts of toFixed *)

Local Abbreviation numeric := (Forall (fun c => numeric_char c = true)).

Lemma digit_char_numeric n : numeric_char (Number.digit_char (n mod 10)) = true.
Proof.
  pose proof (Z.mod_pos_bound n 10 ltac:(lia)) as H.
  assert (n mod 10 = 0 \/ n mod 10 = 1 \/ n mod 10 = 2 \/ n mod 10 = 3 \/ n mod 10 = 4
          \/ n mod 10 = 5 \/ n mod 10 = 6 \/ n mod 10 = 7 \/ n mod 10 = 8 \/ n mod 10 = 9)%Z
    as E by lia.
  repeat (destruct E as [E|E]; [rewrite E; reflexivity|]).
  rewrite E. reflexivity.
Qed.

Lemma decimal_digits_numeric fuel : forall n acc,
  numeric acc -> numeric (Number.decimal_digits fuel n acc).
Proof.
  induction fuel as [|fuel IH]; intros n acc H; simpl; [exact H|].
  assert (numeric (Number.digit_char (n mod 10) :: acc))
    by (constructor; [apply digit_char_numeric|exact H]).
  destruct (n <? 10)%Z; [assumption|now apply IH].
Qed.

Lemma Z_to_decimal_numeric n : numeric (Number.Z_to_decimal n).
Proof. apply decimal_digits_numeric. constructor. Qed.

Lemma numeric_literal (s : str) : forallb numeric_char s = true -> numeric s.
Proof. intros H. apply Forall_forall. now apply forallb_forall. Qed.

Lemma fixed_digits_numeric n f : numeric (Number.fixed_digits n f).
Proof.
  unfold Number.fixed_digits. destruct f as [|f]; [apply Z_to_decimal_numeric|].
  set (m' := repeat "0"%char _ ++ Number.Z_to_decimal n).
  assert (Hm : numeric m').
  { apply Forall_app. split; [|apply Z_to_decimal_numeric].
    apply Forall_forall. intros x Hx. apply repeat_spec in Hx. now subst. }
  rewrite <- (firstn_skipn (List.length m' - S f) m') in Hm.
  apply Forall_app in Hm as [H1 H2].
  apply Forall_app. split; [exact H1|]. apply Forall_app. split; [|exact H2].
  now apply numeric_literal.
Qed.

Lemma strip_zeros_numeric l : numeric l -> numeric (Number.strip_zeros l).
Proof.
  induction l as [|c l IH]; intros H; simpl; [constructor|].
  destruct (Ascii.eqb c "0"); [|exact H]. apply IH. now inversion H.
Qed.

Lemma exponential_numeric x X : numeric (Number.exponential x X).
Proof.
  unfold Number.exponential.
  destruct (Number.shortest 17 x X _ 1) as [[s n] k].
  assert (H : numeric (rev (Number.strip_zeros (rev (Number.Z_to_decimal s))))).
  { apply Forall_rev, strip_zeros_numeric, Forall_rev, Z_to_decimal_numeric. }
  destruct (rev (Number.strip_zeros (rev (Number.Z_to_decimal s)))) as [|c r];
    [now apply numeric_literal|].
  inversion H; subst.
  apply Forall_app. split.
  - constructor; [assumption|]. destruct r; [constructor|].
    apply Forall_app. split; [now apply numeric_literal|assumption].
  - apply Forall_app. split; [now apply numeric_literal|apply Z_to_decimal_numeric].
Qed.

Lemma fixed_numeric x f : numeric (Number.fixed x f).
Proof.
  destruct x as [s|s| |s m e]; simpl.
  - apply fixed_digits_numeric.
  - destruct s; now apply numeric_literal.
  - now apply numeric_literal.
  - apply Forall_app. split; [destruct s; now apply numeric_literal|].
    destruct (_ && _); [apply exponential_numeric|apply fixed_digits_numeric].
Qed.

Lemma numeric_char_facts c :
  numeric_char c = true ->
  c <> "$"%char /\ c <> "<"%char /\ c <> "{"%char /\ c <> "}"%char /\ entity_of c = [c].
Proof.
  destruct c as [[] [] [] [] [] [] [] []]; vm_compute; intros H;
    try discriminate H; repeat split; discriminate.
Qed.

Lemma numeric_not_in (v : str) c :
  numeric v -> numeric_char c = false -> ~ In c v.
Proof.
  intros H Hc Hin. rewrite Forall_forall in H. apply H in Hin. congruence.
Qed.

Lemma numeric_escape v : numeric v -> Template._escape v = v.
Proof.
  intros H. rewrite escape_flat_map.
  induction H as [|c v Hc Hv IH]; [reflexivity|].
  cbn [flat_map]. rewrite IH.
  destruct (numeric_char_facts _ Hc) as [_ [_ [_ [_ ->]]]]. reflexivity.
Qed.

(** ** The summary markup *)

(** The pass on the list template. *)
Lemma list_items_pass R :
  replace_all "{items}" R "<ul>{items}</ul>"
  = "<ul>" ++ GetSubstitution "{items}" "<ul>" "</ul>" R ++ "</ul>".
Proof. reflexivity. Qed.

Lemma in_write {V} (o : object V) k v e : In e (write o k v) -> (k, v) = e \/ In e o.
Proof.
  unfold write. destruct (get o k); [apply in_set|].
  destruct (str_eqb k "__proto__"); [tauto|apply in_set].
Qed.

Lemma get_Some_In {V} (o : object V) k v : get o k = Some v -> In (k, v) o.
Proof.
  induction o as [|[k0 v0] o IH]; simpl; [discriminate|].
  destruct (str_eqb k k0) eqn:E.
  - apply str_eqb_eq in E. subst k0. intros H. inversion H. now left.
  - intros H. right. now apply IH.
Qed.

Lemma toFixed_Normal x decimals text :
  Number.toFixed x decimals = Normal text -> text = Number.fixed x (Z.to_nat decimals).
Proof.
  unfold Number.toFixed. destruct (_ || _); [discriminate|]. intros H. now inversion H.
Qed.

(** What the loop of [_formatTotals] has written when it returns. *)
Lemma formatTotals_loop_entries totals decimals (l : list (str * Summarize.total)) :
  forall acc F,
    Summarize.formatTotals_loop totals decimals l acc = Normal F ->
    forall k v, In (k, v) F ->
      In (k, v) acc
      \/ exists x, In (k, Summarize.Num x) l /\ v = Number.fixed x (Z.to_nat decimals).
Proof.
  induction l as [|[k0 t0] l IH]; intros acc F H k v Hin.
  - inversion H; subst. now left.
  - cbn [Summarize.formatTotals_loop] in H.
    destruct (hasOwnProperty totals k0) as [[]|e|]; cbn [bind] in H; try discriminate.
    + destruct t0 as [x|pieces]; cbn [Summarize.total_toFixed] in H; [|discriminate].
      destruct (Number.toFixed x decimals) as [text|e|] eqn:E; cbn [bind] in H;
        try discriminate.
      apply toFixed_Normal in E.
      destruct (IH _ _ H _ _ Hin) as [Hacc|[y [Hy Hv]]].
      * apply in_write in Hacc as [Hacc|Hacc]; [|now left].
        inversion Hacc; subst. right. exists x. split; [now left|reflexivity].
      * right. exists y. split; [now right|exact Hv].
    + destruct (IH _ _ H _ _ Hin) as [Hacc|[y [Hy Hv]]]; [now left|].
      right. exists y. split; [now right|exact Hv].
Qed.

Lemma formatTotals_entries totals decimals F :
  Summarize._formatTotals totals decimals = Normal F ->
  forall k v, In (k, v) F ->
    exists x n, In (k, Summarize.Num x) totals /\ v = Number.fixed x n.
Proof.
  unfold Summarize._formatTotals. intros H k v Hin.
  destruct (formatTotals_loop_entries _ _ _ _ H _ _ Hin) as [[]|[x [Hx Hv]]].
  exists x. eexists. split; [now apply in_for_in|exact Hv].
Qed.

(** When [_formatTotals] returns, neither the totals nor what it returns
    has a property named [hasOwnProperty]. *)
Lemma formatTotals_guard totals decimals F :
  Summarize._formatTotals totals decimals = Normal F ->
  get F "hasOwnProperty" = None.
Proof.
  intros H. destruct (get F "hasOwnProperty") as [v|] eqn:G; [|reflexivity].
  exfalso. apply get_Some_In in G.
  destruct (formatTotals_entries _ _ H _ _ G) as [x [n [Hx _]]].
  assert (Hown : exists t, get totals "hasOwnProperty" = Some t).
  { apply get_keys. apply in_map_iff. now exists ("hasOwnProperty", Summarize.Num x). }
  destruct Hown as [t Ht].
  unfold Summarize._formatTotals in H.
  destruct (for_in totals) as [|[k0 t0] l] eqn:E.
  - apply (proj1 (for_in_nil_iff totals)) in E. subst totals. discriminate.
  - cbn [Summarize.formatTotals_loop] in H. unfold hasOwnProperty in H.
    rewrite Ht in H. discriminate.
Qed.

Lemma summary_item_no_dollar e :
  plain_value (fst e) -> numeric (snd e) -> ~ In "$"%char (summary_item e).
Proof.
  intros Hk Hv. unfold summary_item. intros H.
  destruct (escape_plain Hk) as [E _].
  apply in_app_or in H as [H|H];
    [vm_compute in H; repeat (destruct H as [H|H]; [discriminate H|]); exact H|].
  apply in_app_or in H as [H|H]; [contradiction|].
  apply in_app_or in H as [H|H];
    [vm_compute in H; repeat (destruct H as [H|H]; [discriminate H|]); exact H|].
  apply in_app_or in H as [H|H];
    [|vm_compute in H; repeat (destruct H as [H|H]; [discriminate H|]); exact H].
  revert H. apply numeric_not_in; [exact Hv|reflexivity].
Qed.

(** X6. When the totals can be formatted and no label contains a dollar
    sign or an opening brace, the summary markup is the list container around
    one item per entry of the formatted totals, in enumeration order: the
    opening tag, the escaped label, the hours span with the formatted total. *)
Theorem summary_markup_closed_form :
  forall (totals : object Summarize.total) (F : object str),
    distinct_keys totals ->
    Forall (fun e => plain_value (fst e)) totals ->
    Summarize._formatTotals totals None = Normal F ->
    Summarize.summary_markup totals
    = Normal ("<ul>" ++ concat (List.map summary_item (for_in F)) ++ "</ul>").
Proof.
  intros totals F _ Hl HF.
  assert (Hent : forall e, In e (for_in F) -> plain_value (fst e) /\ numeric (snd e)).
  { intros [k v] He. apply in_for_in in He.
    destruct (formatTotals_entries _ _ HF _ _ He) as [x [n [Hx ->]]].
    rewrite Forall_forall in Hl. split; [exact (Hl _ Hx)|apply fixed_numeric]. }
  unfold Summarize.summary_markup. rewrite HF. cbn [bind].
  rewrite renderObject_literal by exact (formatTotals_guard _ _ HF). cbn [bind].
  rewrite render_literal.
  2:{ split; [|split; [repeat constructor|reflexivity]].
      repeat constructor. intros []. }
  f_equal. unfold Literal.render.
  change (for_in [("items", ?v)]) with [("items", v)].
  cbn [fold_left Literal.render_key].
  change (Template.placeholder "items") with "{items}".
  rewrite list_items_pass.
  change Summarize.item_template with (flatten item_tokens).
  unfold Literal.renderObject. rewrite fold_left_items. cbn [app].
  assert (E : List.map
                (fun e : str * str =>
                   Literal.render (flatten item_tokens)
                     [("key", fst e); ("value", snd e)] false)
                (for_in F)
              = List.map summary_item (for_in F)).
  { apply map_ext_in. intros e He. destruct (Hent _ He) as [H1 H2].
    unfold Literal.render.
    change (for_in [("key", fst e); ("value", snd e)])
      with [("key", fst e); ("value", snd e)].
    rewrite render_tokens_list.
    - change (concat (List.map (instantiate false [("key", fst e); ("value", snd e)])
                        item_tokens))
        with (Summarize.item_open ++ Template._escape (fst e) ++ Summarize.item_middle
                ++ Template._escape (snd e) ++ Summarize.item_close ++ []).
      rewrite (numeric_escape H2), app_nil_r. reflexivity.
    - repeat constructor.
    - apply Forall_cons; [exact H1|apply Forall_cons; [|apply Forall_nil]].
      split; apply numeric_not_in; try exact H2; reflexivity.
    - repeat constructor; not_in_literal. }
  rewrite E, gs_plain; [reflexivity|].
  intros H. apply in_concat in H as [x [Hx H]].
  apply in_map_iff in Hx as [e [<- He]]. destruct (Hent _ He) as [H1 H2].
  revert H. now apply summary_item_no_dollar.
Qed.

Lemma summary_markup_closed_form_witness :
  Summarize.summary_markup
    [("R&D", Summarize.Num (Number.to_number "1.5")); ("7", Summarize.Num Number.one)]
  = Normal ("<ul>"
              ++ concat (List.map summary_item (for_in [("7", "1.00"); ("R&D", "1.50")]))
              ++ "</ul>").
Proof.
  apply summary_markup_closed_form.
  - repeat constructor; cbn [In]; intuition discriminate.
  - repeat constructor; not_in_literal.
  - reflexivity.
Defined.

Example summary_items_in_index_order :
  Summarize.summary_markup
    [("R&D", Summarize.Num (Number.to_number "1.5")); ("7", Summarize.Num Number.one)]
  = Normal ("<ul>" ++ summary_item ("7", "1.00") ++ summary_item ("R&D", "1.50") ++ "</ul>").
Proof. vm_compute. reflexivity. Qed.

(** ** The label of a note *)

Lemma label_end_spec s :
  Summarize.label_end s = true <->
  exists c b, s = ":"%char :: " "%char :: c :: b /\ Summarize.is_line_terminator c = false.
Proof.
  split.
  - destruct s as [|x [|y [|c b]]]; try discriminate.
    + destruct x as [[] [] [] [] [] [] [] []]; discriminate.
    + destruct x as [[] [] [] [] [] [] [] []]; try discriminate.
      destruct y as [[] [] [] [] [] [] [] []]; discriminate.
    + destruct x as [[] [] [] [] [] [] [] []]; try discriminate.
      destruct y as [[] [] [] [] [] [] [] []]; try discriminate.
      intros H. exists c, b. split; [reflexivity|].
      simpl in H. now apply negb_true_iff in H.
  - intros [c [b [-> H]]]. simpl. now rewrite H.
Qed.

Lemma label_at_sound s : forall l,
  Summarize.label_at s = Some l ->
  exists c b,
    s = l ++ ":"%char :: " "%char :: c :: b
    /\ l <> []
    /\ Forall (fun y => Summarize.is_line_terminator y = false) l
    /\ Summarize.is_line_terminator c = false.
Proof.
  induction s as [|x r IH]; intros l H; [discriminate|].
  cbn [Summarize.label_at] in H.
  destruct (Summarize.is_line_terminator x) eqn:Ex; [discriminate|].
  destruct (Summarize.label_end r) eqn:Er.
  - inversion H; subst. apply label_end_spec in Er as [c [b [-> Hc]]].
    exists c, b. repeat split; [discriminate|now constructor|exact Hc].
  - destruct (Summarize.label_at r) as [l'|] eqn:El; [|discriminate].
    inversion H; subst.
    destruct (IH _ eq_refl) as [c [b [-> [Hn [Hl Hc]]]]].
    exists c, b. repeat split; [discriminate|now constructor|exact Hc].
Qed.

Lemma match_label_sound s : forall l,
  Summarize.match_label s = Some l ->
  exists a c b,
    s = a ++ l ++ ":"%char :: " "%char :: c :: b
    /\ l <> []
    /\ Forall (fun y => Summarize.is_line_terminator y = false) l
    /\ Summarize.is_line_terminator c = false.
Proof.
  induction s as [|x r IH]; intros l H.
  - discriminate.
  - cbn [Summarize.match_label] in H.
    destruct (Summarize.label_at (x :: r)) as [l'|] eqn:E.
    + inversion H; subst. destruct (label_at_sound _ E) as [c [b [Hs Hrest]]].
      exists [], c, b. split; [exact Hs|exact Hrest].
    + destruct (IH _ H) as [a [c [b [-> Hrest]]]].
      exists (x :: a), c, b. split; [reflexivity|exact Hrest].
Qed.

Lemma match_label_complete a x c b :
  Summarize.is_line_terminator x = false ->
  Summarize.is_line_terminator c = false ->
  exists l, Summarize.match_label (a ++ x :: ":"%char :: " "%char :: c :: b) = Some l.
Proof.
  intros Hx Hc. induction a as [|y a IH].
  - exists [x]. cbn [app Summarize.match_label Summarize.label_at].
    rewrite Hx.
    assert (Summarize.label_end (":"%char :: " "%char :: c :: b) = true) as ->
      by (apply label_end_spec; now exists c, b).
    reflexivity.
  - cbn [app Summarize.match_label].
    destruct (Summarize.label_at (y :: a ++ x :: ":"%char :: " "%char :: c :: b)) as [l|];
      [now exists l|exact IH].
Qed.

(** X7. The label [run] reads from a note is a non-empty piece of the note
    without line terminator, directly followed by a colon, a space and a
    character other than a line terminator; and a note has a label exactly
    when a colon and a space stand between two characters that are no line
    terminators. *)
Theorem match_label_spec :
  forall s : str,
    (forall l, Summarize.match_label s = Some l ->
       exists a c b,
         s = a ++ l ++ ":"%char :: " "%char :: c :: b
         /\ l <> []
         /\ Forall (fun y => Summarize.is_line_terminator y = false) l
         /\ Summarize.is_line_terminator c = false)
    /\ ((exists l, Summarize.match_label s = Some l) <->
        (exists a x c b,
            s = a ++ x :: ":"%char :: " "%char :: c :: b
            /\ Summarize.is_line_terminator x = false
            /\ Summarize.is_line_terminator c = false)).
Proof.
  intros s. split; [apply match_label_sound|]. split.
  - intros [l H]. destruct (match_label_sound _ H) as [a [c [b [Hs [Hn [Hl Hc]]]]]].
    destruct (exists_last Hn) as [l' [x ->]].
    exists (a ++ l'), x, c, b. split.
    + rewrite Hs, <- !app_assoc. reflexivity.
    + split; [|exact Hc]. apply Forall_app in Hl as [_ Hl]. now inversion Hl.
  - intros [a [x [c [b [-> [Hx Hc]]]]]]. now apply match_label_complete.
Qed.

(** X8. For a note that starts with a non-empty text free of colons and
    line terminators, followed by a colon, a space and further text on the
    same line, the label is that text. *)
Theorem label_before_first_colon :
  forall (L : str) (c : ascii) (b : str),
    L <> [] ->
    Forall (fun y => Summarize.is_line_terminator y = false /\ y <> ":"%char) L ->
    Summarize.is_line_terminator c = false ->
    Summarize.match_label (L ++ ":"%char :: " "%char :: c :: b) = Some L.
Proof.
  intros L c b Hn HL Hc.
  assert (Hat : Summarize.label_at (L ++ ":"%char :: " "%char :: c :: b) = Some L).
  { induction L as [|x L IH]; [contradiction|].
    inversion HL as [|? ? [Hx _] HL']; subst.
    cbn [app Summarize.label_at]. rewrite Hx.
    destruct L as [|y L].
    - cbn [app].
      assert (Summarize.label_end (":"%char :: " "%char :: c :: b) = true) as ->
        by (apply label_end_spec; now exists c, b).
      reflexivity.
    - assert (Summarize.label_end ((y :: L) ++ ":"%char :: " "%char :: c :: b) = false)
        as ->.
      { destruct (Summarize.label_end _) eqn:E; [|reflexivity].
        apply label_end_spec in E as [c' [b' [E _]]].
        inversion E; subst. inversion HL' as [|? ? [_ Hy] _]. contradiction. }
      rewrite IH; [reflexivity|discriminate|exact HL']. }
  destruct L as [|x L]; [contradiction|].
  cbn [app Summarize.match_label]. cbn [app] in Hat. now rewrite Hat.
Qed.

Lemma label_before_first_colon_witness :
  Summarize.match_label ("Sprint 12" ++ ":"%char :: " "%char :: "p"%char :: "lanning: day 1")
  = Some "Sprint 12".
Proof.
  apply label_before_first_colon.
  - discriminate.
  - repeat constructor; discriminate.
  - reflexivity.
Defined.


(** ** The totals of a pass *)

Lemma get_write_other {V} (o : object V) k k' v :
  k <> k' -> get (write o k v) k' = get o k'.
Proof.
  intros H. unfold write. destruct (get o k); [now apply get_set_other|].
  destruct (str_eqb k "__proto__"); [reflexivity|now apply get_set_other].
Qed.

Lemma write_distinct {V} (o : object V) k v :
  distinct_keys o -> distinct_keys (write o k v).
Proof.
  unfold write, distinct_keys. intros H. destruct (get o k); [now apply set_NoDup|].
  destruct (str_eqb k "__proto__"); [exact H|now apply set_NoDup].
Qed.

Lemma inherited_not_proto (l : str) :
  existsb (str_eqb l) Object_prototype = true -> str_eqb l "__proto__" = false.
Proof.
  intros H. apply str_eqb_neq. intros ->. vm_compute in H. discriminate.
Qed.

(** What the callback does to the total of a label. *)
Lemma add_row_get d x label t0 t1 :
  Summarize.add_row d x t0 = (Normal tt, t1) ->
  get t1 label
  = match row_label d x with
    | Some l => if str_eqb l label then total_step label (get t0 label) (row_hours d x)
                else get t0 label
    | None => get t0 label
    end.
Proof.
  unfold Summarize.add_row, row_label, row_hours. intros H.
  destruct (Xpath.find Summarize.NOTE_CELL d x) as [noteNode|]; [|discriminate].
  destruct (Summarize.match_label (Dom.textContent noteNode)) as [l|];
    [|inversion H; now subst].
  destruct (Xpath.find Summarize.HOUR_CELL d x) as [hourNode|]; [|discriminate].
  inversion H; subst; clear H.
  set (hours := Number.mul (Number.to_number (Dom.textContent hourNode)) Number.one).
  destruct (str_eqb l label) eqn:E.
  - apply str_eqb_eq in E. subst l. unfold read, total_step.
    destruct (get t0 label) as [v|] eqn:G.
    + rewrite G. unfold write. rewrite G. apply get_set_same.
    + destruct (existsb (str_eqb label) Object_prototype) eqn:Ei.
      * rewrite G. cbn [Summarize.plus]. unfold write.
        rewrite G, (inherited_not_proto _ Ei). apply get_set_same.
      * destruct (str_eqb label "__proto__") eqn:Ep.
        -- rewrite G. unfold write. now rewrite G, Ep.
        -- assert (W : write t0 label (Summarize.Num Number.zero)
                       = set t0 label (Summarize.Num Number.zero))
             by (unfold write; now rewrite G, Ep).
           rewrite W, get_set_same. cbn [Summarize.plus].
           unfold write. rewrite get_set_same. apply get_set_same.
  - apply str_eqb_neq in E. rewrite get_write_other by exact E.
    destruct (read t0 l); try reflexivity. now apply get_write_other.
Qed.

Lemma add_row_distinct d x t0 c t1 :
  Summarize.add_row d x t0 = (c, t1) -> distinct_keys t0 -> distinct_keys t1.
Proof.
  unfold Summarize.add_row. intros H Hn.
  destruct (Xpath.find Summarize.NOTE_CELL d x) as [noteNode|]; [|inversion H; now subst].
  destruct (Summarize.match_label (Dom.textContent noteNode)) as [l|];
    [|inversion H; now subst].
  destruct (Xpath.find Summarize.HOUR_CELL d x) as [hourNode|]; [|inversion H; now subst].
  inversion H; subst; clear H.
  apply write_distinct. destruct (read t0 l); try exact Hn. now apply write_distinct.
Qed.

Lemma visit_totals d label (l : list Dom.node) : forall t0 t,
  visit l (Summarize.add_row d) t0 = (Normal tt, t) ->
  get t label = fold_left (total_step label) (hours_for d label l) (get t0 label).
Proof.
  induction l as [|x l IH]; intros t0 t H.
  - inversion H; now subst.
  - cbn [visit] in H.
    destruct (add_row_cases d x t0) as [[t1 E]|E]; rewrite E in H; [|discriminate].
    cbn [and_then] in H. rewrite (IH _ _ H).
    pose proof (@add_row_get d x label t0 t1 E) as G.
    unfold hours_for. cbn [filter].
    destruct (row_label d x) as [lx|].
    + destruct (str_eqb lx label).
      * cbn [List.map fold_left]. fold (hours_for d label l). now rewrite G.
      * fold (hours_for d label l). now rewrite G.
    + fold (hours_for d label l). now rewrite G.
Qed.

Lemma visit_distinct d (l : list Dom.node) : forall t0 c t,
  visit l (Summarize.add_row d) t0 = (c, t) -> distinct_keys t0 -> distinct_keys t.
Proof.
  induction l as [|x l IH]; intros t0 c t H Hn.
  - inversion H; now subst.
  - cbn [visit] in H.
    destruct (Summarize.add_row d x t0) as [[[]|e|] t1] eqn:E; cbn [and_then] in H.
    + eapply IH; [exact H|]. eapply add_row_distinct; eassumption.
    + inversion H; subst. eapply add_row_distinct; eassumption.
    + inversion H; subst. eapply add_row_distinct; eassumption.
Qed.

Lemma fold_step_Num label hs : forall x,
  fold_left (total_step label) hs (Some (Summarize.Num x))
  = Some (Summarize.Num (fold_left Number.add hs x)).
Proof. induction hs as [|h hs IH]; intros x; [reflexivity|]. cbn. apply IH. Qed.

Lemma fold_step_Str label hs : forall pieces,
  fold_left (total_step label) hs (Some (Summarize.Str pieces))
  = Some (Summarize.Str (pieces ++ List.map Summarize.NumberText hs)).
Proof.
  induction hs as [|h hs IH]; intros pieces; cbn; [now rewrite app_nil_r|].
  rewrite IH, <- app_assoc. reflexivity.
Qed.

Lemma fold_step_None label hs :
  existsb (str_eqb label) Object_prototype = false -> str_eqb label "__proto__" = true ->
  fold_left (total_step label) hs None = None.
Proof.
  intros H1 H2. induction hs as [|h hs IH]; [reflexivity|].
  cbn [fold_left total_step]. now rewrite H1, H2.
Qed.

(** The steps of a pass, from nothing held, in closed form. *)
Lemma fold_step_total_of label hs :
  fold_left (total_step label) hs None = total_of label hs.
Proof.
  destruct hs as [|h hs]; [reflexivity|].
  unfold total_of. cbn [fold_left total_step].
  destruct (existsb (str_eqb label) Object_prototype) eqn:Ei.
  - rewrite fold_step_Str. reflexivity.
  - destruct (str_eqb label "__proto__") eqn:Ep.
    + now apply fold_step_None.
    + rewrite fold_step_Num. reflexivity.
Qed.

(** X9. When the pass returns, what the totals hold under a label follows
    from the hours of the rows with that label, in row order: nothing when no
    row has the label; for an ordinary label the number zero plus these
    hours, added from left to right; for a label that names a function of
    [Object.prototype] a text, the source of that function followed by the
    hours; and nothing under [__proto__]. *)
Theorem aggregate_sums_hours :
  forall (d : Dom.document) (rows : QueryResult.t Dom.node) (totals : object Summarize.total),
    Summarize.aggregate rows d = (Normal tt, totals) ->
    forall label,
      get totals label
      = total_of label (hours_for d label (XPathResult.snapshot (QueryResult.result rows))).
Proof.
  intros d rows totals H label. rewrite aggregate_visit in H.
  rewrite (@visit_totals d label _ _ _ H). apply fold_step_total_of.
Qed.

Lemma aggregate_sums_hours_witness :
  get [("A", Summarize.Num (Number.to_number "2.25"));
       ("B", Summarize.Num (Number.to_number "2.25"))] "A"
  = total_of "A"
      (hours_for Sample.timesheet "A"
         (XPathResult.snapshot
            (QueryResult.result (Xpath.findAll AdminHelper.ADMIN_ROWS Sample.timesheet)))).
Proof.
  apply (@aggregate_sums_hours Sample.timesheet
           (Xpath.findAll AdminHelper.ADMIN_ROWS Sample.timesheet)).
  vm_compute. reflexivity.
Defined.

Lemma add_NaN_r x : Number.add x Number.NaN = Number.NaN.
Proof. now destruct x. Qed.

Lemma add_NaN_l x : Number.add Number.NaN x = Number.NaN.
Proof. now destruct x. Qed.

Lemma fold_add_NaN hs : fold_left Number.add hs Number.NaN = Number.NaN.
Proof. induction hs as [|h hs IH]; [reflexivity|]. cbn [fold_left]. now rewrite add_NaN_l. Qed.

Lemma fold_add_poisoned hs : forall x,
  In Number.NaN hs -> fold_left Number.add hs x = Number.NaN.
Proof.
  induction hs as [|h hs IH]; intros x H; [contradiction|].
  cbn [fold_left]. destruct H as [->|H]; [|now apply IH].
  rewrite add_NaN_r. apply fold_add_NaN.
Qed.

(** X19. Hours text that is no number coerces to NaN, and under a label
    that names nothing an object inherits the total is then NaN when the pass
    returns, whatever the other rows with that label hold. *)
Theorem ordinary_label_total_is_poisoned :
  forall (d : Dom.document) (rows : QueryResult.t Dom.node) (totals : object Summarize.total)
         (n : Dom.node) (note hour : Dom.cell) (label : str),
    Summarize.aggregate rows d = (Normal tt, totals) ->
    In n (XPathResult.snapshot (QueryResult.result rows)) ->
    Xpath.find Summarize.NOTE_CELL d n = Some note ->
    Summarize.match_label (Dom.textContent note) = Some label ->
    Xpath.find Summarize.HOUR_CELL d n = Some hour ->
    numeric_text (Dom.textContent hour) = false ->
    existsb (str_eqb label) Object_prototype = false ->
    label <> "__proto__" ->
    Number.to_number (Dom.textContent hour) = Number.NaN
    /\ get totals label = Some (Summarize.Num Number.NaN).
Proof.
  intros d rows totals n note hour label H Hin Hn Hl Hh Hnum Hi Hp.
  assert (Hnan : Number.to_number (Dom.textContent hour) = Number.NaN).
  { unfold numeric_text in Hnum. unfold Number.to_number.
    apply orb_false_iff in Hnum as [H1 H2]. rewrite H1.
    now destruct (Number.parse_numeric (Number.trim (Dom.textContent hour))). }
  split; [exact Hnan|].
  rewrite aggregate_visit in H.
  rewrite (@visit_totals d label _ _ _ H), fold_step_total_of.
  assert (Hin' : In Number.NaN
                   (hours_for d label (XPathResult.snapshot (QueryResult.result rows)))).
  { unfold hours_for. apply in_map_iff. exists n. split.
    - unfold row_hours. rewrite Hh, Hnan. reflexivity.
    - apply filter_In. split; [exact Hin|].
      unfold row_label. rewrite Hn, Hl. apply str_eqb_refl. }
  unfold total_of.
  destruct (hours_for d label (XPathResult.snapshot (QueryResult.result rows))) as [|h hs];
    [contradiction|].
  apply str_eqb_neq in Hp. rewrite Hi, Hp.
  now rewrite (fold_add_poisoned _ _ Hin').
Qed.

Lemma ordinary_label_total_is_poisoned_witness :
  Number.to_number (Dom.textContent (Sample.hours "n/a")) = Number.NaN
  /\ get [("A", Summarize.Num Number.NaN)] "A" = Some (Summarize.Num Number.NaN).
Proof.
  apply (@ordinary_label_total_is_poisoned Sample.page_bad_hours
           (Xpath.findAll AdminHelper.ADMIN_ROWS Sample.page_bad_hours)
           [("A", Summarize.Num Number.NaN)] 1 (Sample.notes "A: y") (Sample.hours "n/a") "A");
    try (vm_compute; reflexivity).
  - right. now left.
  - discriminate.
Defined.

(** X10. The totals of a pass that returns have each label once, and their
    labels are the labels of the rows of the snapshot other than
    [__proto__]. *)
Theorem aggregate_labels :
  forall (d : Dom.document) (rows : QueryResult.t Dom.node) (totals : object Summarize.total),
    Summarize.aggregate rows d = (Normal tt, totals) ->
    distinct_keys totals
    /\ forall label,
         In label (List.map fst totals)
         <-> label <> "__proto__"
             /\ exists n, In n (XPathResult.snapshot (QueryResult.result rows))
                          /\ row_label d n = Some label.
Proof.
  intros d rows totals H. split.
  - rewrite aggregate_visit in H. eapply visit_distinct; [exact H|constructor].
  - intros label. rewrite get_keys.
    pose proof H as H'. rewrite aggregate_visit in H'.
    rewrite (@visit_totals d label _ _ _ H'), fold_step_total_of.
    unfold hours_for, total_of.
    set (f := fun n => match row_label d n with
                       | Some l => str_eqb l label
                       | None => false
                       end).
    split.
    + intros [v Hv].
      destruct (filter f (XPathResult.snapshot (QueryResult.result rows))) as [|n ns] eqn:E;
        [discriminate|].
      cbn [List.map] in Hv. split.
      * intros ->. vm_compute in Hv. discriminate.
      * assert (Hin : In n (filter f (XPathResult.snapshot (QueryResult.result rows))))
          by (rewrite E; now left).
        apply filter_In in Hin as [Hin Hf]. exists n. split; [exact Hin|].
        unfold f in Hf. destruct (row_label d n) as [l|]; [|discriminate].
        apply str_eqb_eq in Hf. now subst.
    + intros [Hp [n [Hin Hl]]].
      assert (Hf : In n (filter f (XPathResult.snapshot (QueryResult.result rows)))).
      { apply filter_In. split; [exact Hin|]. unfold f. rewrite Hl. apply str_eqb_refl. }
      destruct (filter f (XPathResult.snapshot (QueryResult.result rows))) as [|m ms];
        [contradiction|]. cbn [List.map].
      destruct (existsb (str_eqb label) Object_prototype); [eexists; reflexivity|].
      apply str_eqb_neq in Hp. rewrite Hp. eexists. reflexivity.
Qed.

Lemma aggregate_labels_witness :
  distinct_keys [("A", Summarize.Num (Number.to_number "2.25"));
                 ("B", Summarize.Num (Number.to_number "2.25"))]
  /\ forall label,
       In label (List.map fst [("A", Summarize.Num (Number.to_number "2.25"));
                               ("B", Summarize.Num (Number.to_number "2.25"))])
       <-> label <> "__proto__"
           /\ exists n,
                In n (XPathResult.snapshot
                        (QueryResult.result
                           (Xpath.findAll AdminHelper.ADMIN_ROWS Sample.timesheet)))
                /\ row_label Sample.timesheet n = Some label.
Proof.
  apply (@aggregate_labels Sample.timesheet
           (Xpath.findAll AdminHelper.ADMIN_ROWS Sample.timesheet)).
  vm_compute. reflexivity.
Defined.

(** X11. When every row of the snapshot has a note and no note has a label
    (also when the snapshot is empty), [run] completes and leaves the document
    as it is: nothing is inserted. *)
Theorem run_without_labels :
  forall (d : Dom.document) (rows : QueryResult.t Dom.node),
    (forall n, In n (XPathResult.snapshot (QueryResult.result rows)) ->
               exists note, Xpath.find Summarize.NOTE_CELL d n = Some note
                            /\ Summarize.match_label (Dom.textContent note) = None) ->
    Summarize.run rows d = (Normal tt, d).
Proof.
  intros d rows H. unfold Summarize.run. rewrite aggregate_visit.
  assert (E : visit (XPathResult.snapshot (QueryResult.result rows))
                (Summarize.add_row d) [] = (Normal tt, [])).
  { induction (XPathResult.snapshot (QueryResult.result rows)) as [|x l IH];
      [reflexivity|].
    cbn [visit]. destruct (H x ltac:(now left)) as [note [Hn Hl]].
    unfold Summarize.add_row at 1. rewrite Hn, Hl. cbn [and_then].
    apply IH. intros n Hin. apply H. now right. }
  rewrite E. unfold Summarize._render.
  now destruct (Dom.getElementById d Summarize.TARGET_OUTPUT).
Qed.

Lemma run_without_labels_witness :
  Summarize.run (Xpath.findAll AdminHelper.ADMIN_ROWS Sample.page_plain_note)
    Sample.page_plain_note
  = (Normal tt, Sample.page_plain_note).
Proof.
  apply run_without_labels.
  intros n [<-|[]]. exists (Sample.notes "lunch"). split; reflexivity.
Defined.

(** ** Highlight *)

Lemma classList_add_spec c r :
  Dom.cells (Dom.classList_add c r) = Dom.cells r
  /\ (forall x, In x (Dom.classList (Dom.classList_add c r)) <-> x = c \/ In x (Dom.classList r))
  /\ (NoDup (Dom.classList r) -> NoDup (Dom.classList (Dom.classList_add c r))).
Proof.
  unfold Dom.classList_add; simpl.
  destruct (existsb (str_eqb c) (Dom.classList r)) eqn:E.
  - apply existsb_exists in E as [y [Hy E]]. apply str_eqb_eq in E. subst y.
    repeat split; auto.
    + intros [->|H]; assumption.
  - repeat split.
    + intros H. apply in_app_or in H as [H|[H|[]]]; [now right|now left].
    + intros [->|H]; apply in_or_app; [right; now left|now left].
    + intros H. apply NoDup_app; [exact H|repeat constructor; intros []|].
      intros a Ha [<-|[]].
      assert (existsb (str_eqb c) (Dom.classList r) = true); [|congruence].
      apply existsb_exists. exists c. split; [exact Ha|apply str_eqb_refl].
Qed.

Lemma classList_add_idempotent c r :
  Dom.classList_add c (Dom.classList_add c r) = Dom.classList_add c r.
Proof.
  unfold Dom.classList_add at 1.
  assert (existsb (str_eqb c) (Dom.classList (Dom.classList_add c r)) = true) as ->.
  { apply existsb_exists. exists c. split; [apply classList_add_In|apply str_eqb_refl]. }
  now destruct (Dom.classList_add c r).
Qed.

Lemma highlight_fold (l : list Dom.node) : forall d,
  visit l (fun row d => (Normal tt, Highlight.highlight row d)) d
  = (Normal tt,
     {| Dom.rows :=
          fold_left (fun rs row =>
                       Dom.update rs row (Dom.classList_add Highlight.HIGHLIGHT_CLASS))
            l (Dom.rows d);
        Dom.elements := Dom.elements d |}).
Proof.
  induction l as [|x l IH]; intros d; [now destruct d|].
  cbn [visit and_then fold_left]. now rewrite IH.
Qed.

Lemma highlight_rows (l : list Dom.node) : forall rs n,
  nth_error
    (fold_left (fun rs row => Dom.update rs row (Dom.classList_add Highlight.HIGHLIGHT_CLASS))
       l rs) n
  = option_map
      (fun r => if existsb (Nat.eqb n) l
                then Dom.classList_add Highlight.HIGHLIGHT_CLASS r else r)
      (nth_error rs n).
Proof.
  induction l as [|x l IH]; intros rs n.
  - cbn [fold_left existsb]. now destruct (nth_error rs n).
  - cbn [fold_left existsb]. rewrite IH, update_nth_error.
    rewrite (Nat.eqb_sym n x).
    destruct (Nat.eqb x n); cbn [orb]; [|reflexivity].
    destruct (nth_error rs n) as [r|]; [|reflexivity]. cbn [option_map].
    destruct (existsb (Nat.eqb n) l); [|reflexivity].
    now rewrite classList_add_idempotent.
Qed.

Lemma highlight_run rows d :
  Highlight.run rows d
  = (Normal tt,
     {| Dom.rows :=
          fold_left (fun rs row =>
                       Dom.update rs row (Dom.classList_add Highlight.HIGHLIGHT_CLASS))
            (XPathResult.snapshot (QueryResult.result rows)) (Dom.rows d);
        Dom.elements := Dom.elements d |}).
Proof. unfold Highlight.run. rewrite forEach_visit. apply highlight_fold. Qed.

(** X12. [Highlight.run] always completes; it adds the highlight class to
    the rows of the snapshot and changes nothing else: the elements, the
    number of rows, the rows outside the snapshot and the cells of every row
    stay, a class list keeps the classes it had, and a class list without
    repetition stays without repetition. *)
Theorem highlight_effect :
  forall (rows : QueryResult.t Dom.node) (d : Dom.document),
    exists d1,
      Highlight.run rows d = (Normal tt, d1)
      /\ Dom.elements d1 = Dom.elements d
      /\ (forall n,
             nth_error (Dom.rows d1) n
             = option_map
                 (fun r =>
                    if existsb (Nat.eqb n) (XPathResult.snapshot (QueryResult.result rows))
                    then Dom.classList_add Highlight.HIGHLIGHT_CLASS r else r)
                 (nth_error (Dom.rows d) n))
      /\ (forall r,
             Dom.cells (Dom.classList_add Highlight.HIGHLIGHT_CLASS r) = Dom.cells r
             /\ (forall x,
                    In x (Dom.classList (Dom.classList_add Highlight.HIGHLIGHT_CLASS r))
                    <-> x = Highlight.HIGHLIGHT_CLASS \/ In x (Dom.classList r))
             /\ (NoDup (Dom.classList r) ->
                 NoDup (Dom.classList (Dom.classList_add Highlight.HIGHLIGHT_CLASS r)))).
Proof.
  intros rows d. eexists. split; [apply highlight_run|].
  split; [reflexivity|]. split; [intros n; apply highlight_rows|].
  intros r. apply classList_add_spec.
Qed.

(** X13. Highlighting twice is highlighting once: a second run over the
    same snapshot leaves the document of the first run as it is. *)
Theorem highlight_idempotent :
  forall (rows : QueryResult.t Dom.node) (d : Dom.document),
    exists d1,
      Highlight.run rows d = (Normal tt, d1) /\ Highlight.run rows d1 = (Normal tt, d1).
Proof.
  intros rows d. eexists. split; [apply highlight_run|].
  rewrite highlight_run. cbn [Dom.rows Dom.elements]. f_equal. f_equal.
  apply nth_error_ext. intros n. rewrite !highlight_rows.
  destruct (nth_error (Dom.rows d) n) as [r|]; [|reflexivity]. cbn [option_map].
  destruct (existsb (Nat.eqb n) (XPathResult.snapshot (QueryResult.result rows)));
    [|reflexivity].
  now rewrite classList_add_idempotent.
Qed.

(** ** The two hooks together *)

Lemma find_after_highlight path rows d n :
  Xpath.find path
    {| Dom.rows :=
         fold_left (fun rs row =>
                      Dom.update rs row (Dom.classList_add Highlight.HIGHLIGHT_CLASS))
           (XPathResult.snapshot (QueryResult.result rows)) (Dom.rows d);
       Dom.elements := Dom.elements d |} n
  = Xpath.find path d n.
Proof.
  unfold Xpath.find, Xpath.evaluate_cells. cbn [Dom.rows].
  rewrite highlight_rows.
  destruct (nth_error (Dom.rows d) n) as [r|]; [|reflexivity]. cbn [option_map].
  now destruct (existsb (Nat.eqb n) (XPathResult.snapshot (QueryResult.result rows))).
Qed.

Lemma visit_ext {node St} (f g : node -> St -> completion unit * St) (l : list node) :
  (forall x st, f x st = g x st) -> forall st, visit l f st = visit l g st.
Proof.
  intros H. induction l as [|x l IH]; intros st; [reflexivity|].
  cbn [visit]. rewrite H. apply and_then_ext. exact IH.
Qed.

Lemma aggregate_after_highlight rows d :
  Summarize.aggregate rows
    {| Dom.rows :=
         fold_left (fun rs row =>
                      Dom.update rs row (Dom.classList_add Highlight.HIGHLIGHT_CLASS))
           (XPathResult.snapshot (QueryResult.result rows)) (Dom.rows d);
       Dom.elements := Dom.elements d |}
  = Summarize.aggregate rows d.
Proof.
  rewrite !aggregate_visit. apply visit_ext. intros x st.
  unfold Summarize.add_row. now rewrite !find_after_highlight.
Qed.

(** The summarizer ends the same way before and after the highlighter,
    and writes the same elements. *)
Lemma run_after_highlight rows d :
  let d1 := snd (Highlight.run rows d) in
  fst (Summarize.run rows d1) = fst (Summarize.run rows d)
  /\ Dom.elements (snd (Summarize.run rows d1)) = Dom.elements (snd (Summarize.run rows d))
  /\ Dom.rows (snd (Summarize.run rows d1)) = Dom.rows d1
  /\ Dom.rows (snd (Summarize.run rows d)) = Dom.rows d
  /\ (fst (Summarize.run rows d) <> Normal tt ->
      snd (Summarize.run rows d1) = d1 /\ snd (Summarize.run rows d) = d).
Proof.
  rewrite highlight_run. cbn [snd]. unfold Summarize.run.
  rewrite aggregate_after_highlight.
  destruct (Summarize.aggregate rows d) as [[[]|e|] totals];
    [|repeat split; reflexivity|repeat split; reflexivity].
  unfold Summarize._render, Dom.getElementById. cbn [Dom.elements Dom.rows].
  destruct (find _ (Dom.elements d)); [|repeat split; try reflexivity; cbn [fst snd] in *; congruence].
  destruct (Summarize._shouldRender totals);
    [|repeat split; try reflexivity; cbn [fst snd] in *; congruence].
  destruct (Summarize.summary_markup totals);
    repeat split; try reflexivity; cbn [fst snd] in *; congruence.
Qed.

(** X14. The two hooks do not interfere: the summarizer reads cells and
    writes elements, the highlighter writes class lists.  So [init] ends the
    same way for [Highlight, Summarize] and for [Summarize, Highlight]; when
    it returns, the two orders leave the same document; when the summarizer
    throws, the highlighter has run in the first order and the document has
    its classes, while in the second order the document is left as it was. *)
Theorem hooks_commute :
  forall d : Dom.document,
    let rows := Xpath.findAll AdminHelper.ADMIN_ROWS d in
    let first := AdminHelper.init [AdminHelper.Highlight; AdminHelper.Summarize] d in
    let second := AdminHelper.init [AdminHelper.Summarize; AdminHelper.Highlight] d in
    fst first = fst second
    /\ fst second = fst (Summarize.run rows d)
    /\ (fst second = Normal tt -> snd first = snd second)
    /\ (fst second <> Normal tt ->
        snd first = snd (Highlight.run rows d) /\ snd second = d).
Proof.
  intros d rows first second.
  destruct (run_after_highlight rows d) as [H1 [H2 [H3 [H4 H5]]]].
  unfold first, second, AdminHelper.init, AdminHelper._iterateRows. fold rows.
  cbn [AdminHelper.dispatch AdminHelper.run AdminHelper.Highlight AdminHelper.Summarize].
  rewrite (highlight_run rows d) in *. cbn [and_then snd] in *.
  set (d1 := {| Dom.rows := _; Dom.elements := Dom.elements d |}) in *.
  destruct (Summarize.run rows d1) as [c1 e1] eqn:E1.
  destruct (Summarize.run rows d) as [c0 e0] eqn:E0.
  cbn [fst snd] in *. subst c1.
  destruct c0 as [[]|e|]; cbn [and_then].
  - rewrite (highlight_run rows e0). cbn [and_then fst snd].
    split; [reflexivity|]. split; [reflexivity|]. split.
    + intros _. destruct e1 as [r1 l1]. cbn [Dom.rows Dom.elements] in *.
      subst r1 l1. rewrite H4. reflexivity.
    + intros H. exfalso. now apply H.
  - cbn [fst snd]. split; [reflexivity|]. split; [reflexivity|]. split.
    + intros H. discriminate H.
    + intros _. apply H5. discriminate.
  - cbn [fst snd]. split; [reflexivity|]. split; [reflexivity|]. split.
    + intros H. discriminate H.
    + intros _. apply H5. discriminate.
Qed.

(** X15. An exception in a hook leaves [init] at once: when the hooks
    before it complete and it throws, the dispatch throws the same exception
    and leaves the document as that hook left it, whatever hooks follow. *)
Theorem dispatch_stops_at_throw :
  forall (rows : QueryResult.t Dom.node) (before after : list AdminHelper.hook)
         (h : AdminHelper.hook) (d d' d'' : Dom.document)
         (f : QueryResult.t Dom.node -> Dom.document -> completion unit * Dom.document)
         (e : exn),
    AdminHelper.dispatch rows before d = (Normal tt, d') ->
    AdminHelper.run h = Some f ->
    f rows d' = (Throw e, d'') ->
    AdminHelper.dispatch rows (before ++ h :: after) d = (Throw e, d'').
Proof.
  intros rows before after h d d' d'' f e Hb Hh Hf.
  rewrite dispatch_app, Hb. cbn [and_then AdminHelper.dispatch]. now rewrite Hh, Hf.
Qed.

Lemma dispatch_stops_at_throw_witness :
  AdminHelper.dispatch (Xpath.findAll AdminHelper.ADMIN_ROWS Sample.page_without_hours)
    ([AdminHelper.Highlight] ++ AdminHelper.Summarize :: [AdminHelper.Highlight])
    Sample.page_without_hours
  = (Throw TypeError,
     snd (Highlight.run (Xpath.findAll AdminHelper.ADMIN_ROWS Sample.page_without_hours)
            Sample.page_without_hours)).
Proof.
  eapply dispatch_stops_at_throw; reflexivity.
Defined.

(** X16. With the two hooks of the script, [init] throws a TypeError
    whenever some admin row of the page has no notes cell; the rows are
    highlighted by then, and nothing is inserted. *)
Theorem main_throws_without_notes :
  forall (d : Dom.document) (n : Dom.node),
    In n (XPathResult.snapshot
            (QueryResult.result (Xpath.findAll AdminHelper.ADMIN_ROWS d))) ->
    Xpath.find Summarize.NOTE_CELL d n = None ->
    AdminHelper.main d
    = (Throw TypeError, snd (Highlight.run (Xpath.findAll AdminHelper.ADMIN_ROWS d) d)).
Proof.
  intros d n Hin Hn.
  unfold AdminHelper.main, AdminHelper.init, AdminHelper._iterateRows.
  set (rows := Xpath.findAll AdminHelper.ADMIN_ROWS d) in *.
  cbn [AdminHelper.dispatch AdminHelper.run AdminHelper.Highlight AdminHelper.Summarize].
  rewrite highlight_run. cbn [and_then snd]. unfold Summarize.run.
  rewrite aggregate_after_highlight, aggregate_visit.
  pose proof (@visit_absent_note_throws d n _ Hin Hn []) as H.
  destruct (visit _ _ _) as [c t]. cbn [fst] in H. subst c. reflexivity.
Qed.

Lemma main_throws_without_notes_witness :
  AdminHelper.main Sample.page_without_note
  = (Throw TypeError,
     snd (Highlight.run (Xpath.findAll AdminHelper.ADMIN_ROWS Sample.page_without_note)
            Sample.page_without_note)).
Proof.
  apply (@main_throws_without_notes Sample.page_without_note 1).
  - right. now left.
  - reflexivity.
Defined.

(** ** Enumeration and formatting *)

Lemma insert_index_perm {V} n (e : str * V) l :
  Permutation (insert_index n e l) ((n, e) :: l).
Proof.
  induction l as [|[m e'] l IH]; simpl; [reflexivity|].
  destruct (n <? m)%Z; [reflexivity|].
  rewrite IH. apply perm_swap.
Qed.

(** A [for in] loop visits every property once. *)
Lemma for_in_perm {V} (o : object V) : Permutation (for_in o) o.
Proof.
  unfold for_in. induction o as [|[k v] o IH]; [reflexivity|].
  simpl. destruct (array_index k).
  - rewrite insert_index_perm. simpl. now constructor.
  - rewrite <- Permutation_middle. now constructor.
Qed.

Lemma get_In {V} (o : object V) k v :
  NoDup (List.map fst o) -> (get o k = Some v <-> In (k, v) o).
Proof.
  induction o as [|[k0 v0] o IH]; intros Hn; simpl.
  - split; [discriminate|intros []].
  - inversion Hn as [|? ? Hk Ho]; subst.
    destruct (str_eqb k k0) eqn:E.
    + apply str_eqb_eq in E. subst k0. split.
      * intros H. inversion H. now left.
      * intros [H|H]; [now inversion H|].
        exfalso. apply Hk. apply in_map_iff. now exists (k, v).
    + apply str_eqb_neq in E. rewrite (IH Ho). split; [tauto|].
      intros [H|H]; [inversion H; congruence|exact H].
Qed.

Lemma get_for_in {V} (o : object V) k :
  NoDup (List.map fst o) -> get (for_in o) k = get o k.
Proof.
  intros Hn.
  assert (Hn' : NoDup (List.map fst (for_in o))).
  { eapply Permutation_NoDup; [|exact Hn].
    apply Permutation_map. symmetry. apply for_in_perm. }
  destruct (get o k) as [v|] eqn:E.
  - apply (get_In _ _ _ Hn') . apply (get_In _ _ _ Hn) in E.
    eapply Permutation_in; [symmetry; apply for_in_perm|exact E].
  - destruct (get (for_in o) k) as [v|] eqn:E'; [|reflexivity].
    apply (get_In _ _ _ Hn') in E'.
    apply (Permutation_in _ (for_in_perm o)) in E'.
    apply (get_In _ _ _ Hn) in E'. congruence.
Qed.

Lemma for_in_distinct {V} (o : object V) :
  distinct_keys o -> NoDup (List.map fst (for_in o)).
Proof.
  intros Hn. eapply Permutation_NoDup; [|exact Hn].
  apply Permutation_map. symmetry. apply for_in_perm.
Qed.

Lemma set_fresh {V} (o : object V) k v : get o k = None -> set o k v = o ++ [(k, v)].
Proof.
  induction o as [|[k0 v0] o IH]; intros H; [reflexivity|].
  simpl in *. destruct (str_eqb k k0); [discriminate|]. now rewrite IH.
Qed.

Lemma get_app_None {V} (a b : object V) k :
  get (a ++ b) k = None <-> get a k = None /\ get b k = None.
Proof.
  induction a as [|[k0 v0] a IH]; simpl; [tauto|].
  destruct (str_eqb k k0); [|exact IH]. split; [discriminate|intros [H _]; discriminate].
Qed.

Lemma toFixed_in_range x n :
  (0 <= n <= 100)%Z -> Number.toFixed x n = Normal (Number.fixed x (Z.to_nat n)).
Proof.
  intros H. unfold Number.toFixed.
  assert ((n <? 0)%Z = false) as -> by (apply Z.ltb_ge; lia).
  assert ((100 <? n)%Z = false) as -> by (apply Z.ltb_ge; lia).
  reflexivity.
Qed.

(** The loop of [_formatTotals] over numbers: it returns, the keys are
    created in the order of the visit, nothing is created under [__proto__],
    and each key holds the text of its number. *)
Lemma formatTotals_loop_numbers totals n (l : list (str * Summarize.total)) :
  get totals "hasOwnProperty" = None ->
  (0 <= n <= 100)%Z ->
  (forall k v, In (k, v) l -> exists v', get totals k = Some v') ->
  Forall (fun e => exists x, snd e = Summarize.Num x) l ->
  NoDup (List.map fst l) ->
  forall acc,
    get acc "__proto__" = None ->
    (forall k, In k (List.map fst l) -> get acc k = None) ->
    exists F,
      Summarize.formatTotals_loop totals n l acc = Normal F
      /\ List.map fst F
         = List.map fst acc
             ++ filter (fun k => negb (str_eqb k "__proto__")) (List.map fst l)
      /\ get F "__proto__" = None
      /\ forall label, label <> "__proto__" ->
           get F label
           = match get l label with
             | Some (Summarize.Num x) => Some (Number.fixed x (Z.to_nat n))
             | Some (Summarize.Str _) => None
             | None => get acc label
             end.
Proof.
  intros Hh Hn Hown Hnum. revert Hown.
  induction Hnum as [|[k t] l [x Hx] Hnum IH]; intros Hown Hd acc Hp Hacc.
  - exists acc. cbn. rewrite app_nil_r. repeat split; try assumption; reflexivity.
  - cbn [snd] in Hx. subst t. inversion Hd as [|? ? Hk Hd']; subst.
    cbn [Summarize.formatTotals_loop].
    rewrite (@hasOwnProperty_own _ totals k Hh (Hown k _ ltac:(now left))). cbn [bind].
    cbn [Summarize.total_toFixed]. rewrite (toFixed_in_range _ Hn). cbn [bind].
    set (text := Number.fixed x (Z.to_nat n)).
    assert (Hk' : get l k = None).
    { destruct (get l k) eqn:G; [|reflexivity]. exfalso. apply Hk.
      apply get_keys. eauto. }
    destruct (IH ltac:(intros k' v' H; apply (Hown k' v'); now right) Hd'
                 (write acc k text)) as [F [HF [Hkeys [HFp Hget]]]].
    { unfold write. rewrite (Hacc k ltac:(now left)).
      destruct (str_eqb k "__proto__") eqn:Ep; [exact Hp|].
      apply str_eqb_neq in Ep. rewrite get_set_other; [exact Hp|exact Ep]. }
    { intros k' Hin. rewrite get_write_other; [apply Hacc; now right|].
      intros ->. contradiction. }
    exists F. split; [exact HF|]. split; [|split; [exact HFp|]].
    + rewrite Hkeys. cbn [List.map fst filter]. unfold write.
      rewrite (Hacc k ltac:(now left)).
      destruct (str_eqb k "__proto__"); cbn [negb]; [reflexivity|].
      rewrite set_fresh by (apply Hacc; now left).
      rewrite map_app, <- app_assoc. reflexivity.
    + intros label Hl. rewrite (Hget label Hl). cbn [get].
      destruct (str_eqb label k) eqn:E.
      * apply str_eqb_eq in E. subst label. rewrite Hk'.
        unfold write. rewrite (Hacc k ltac:(now left)).
        apply str_eqb_neq in Hl. rewrite Hl. apply get_set_same.
      * apply str_eqb_neq in E.
        destruct (get l label) as [[y|p]|]; try reflexivity.
        apply get_write_other. congruence.
Qed.

(** X17. For totals that are numbers, with each label once and none named
    [hasOwnProperty], and a number of decimals from 0 to 100 (2 when it is
    left out), [_formatTotals] returns an object with the labels of the
    totals other than [__proto__], created in enumeration order, each with
    its total written by [toFixed]. *)
Theorem formatTotals_lookup :
  forall (totals : object Summarize.total) (decimals : option Z),
    let digits := match decimals with None => 2%Z | Some n => n end in
    distinct_keys totals ->
    get totals "hasOwnProperty" = None ->
    Forall (fun e => exists x, snd e = Summarize.Num x) totals ->
    (0 <= digits <= 100)%Z ->
    exists F,
      Summarize._formatTotals totals decimals = Normal F
      /\ distinct_keys F
      /\ List.map fst F
         = filter (fun k => negb (str_eqb k "__proto__")) (List.map fst (for_in totals))
      /\ (forall label x,
             label <> "__proto__" ->
             get totals label = Some (Summarize.Num x) ->
             get F label = Some (Number.fixed x (Z.to_nat digits)))
      /\ (forall label, get totals label = None -> get F label = None)
      /\ get F "__proto__" = None.
Proof.
  intros totals decimals digits Hd Hh Hnum Hn.
  destruct (@formatTotals_loop_numbers totals digits (for_in totals) Hh Hn) with (acc := @nil (str * str))
    as [F [HF [Hkeys [HFp Hget]]]].
  - intros k v. apply for_in_own.
  - apply Forall_forall. intros e He. rewrite Forall_forall in Hnum.
    apply Hnum. now apply in_for_in.
  - now apply for_in_distinct.
  - reflexivity.
  - reflexivity.
  - exists F. split; [exact HF|]. cbn [List.map app] in Hkeys.
    split; [|split; [exact Hkeys|split; [|split; [|exact HFp]]]].
    + unfold distinct_keys. rewrite Hkeys. apply NoDup_filter. now apply for_in_distinct.
    + intros label x Hl Hx. rewrite (Hget label Hl), get_for_in by exact Hd.
      now rewrite Hx.
    + intros label Hx. destruct (str_eqb label "__proto__") eqn:E.
      * apply str_eqb_eq in E. now subst label.
      * apply str_eqb_neq in E. rewrite (Hget label E), get_for_in by exact Hd.
        now rewrite Hx.
Qed.

Lemma formatTotals_lookup_witness :
  exists F,
    Summarize._formatTotals
      [("B", Summarize.Num (Number.to_number "0.125")); ("3", Summarize.Num Number.one)]
      (Some 2%Z)
    = Normal F
    /\ distinct_keys F
    /\ List.map fst F
       = filter (fun k => negb (str_eqb k "__proto__"))
           (List.map fst
              (for_in [("B", Summarize.Num (Number.to_number "0.125"));
                       ("3", Summarize.Num Number.one)]))
    /\ (forall label x,
           label <> "__proto__" ->
           get [("B", Summarize.Num (Number.to_number "0.125")); ("3", Summarize.Num Number.one)]
             label = Some (Summarize.Num x) ->
           get F label = Some (Number.fixed x (Z.to_nat 2)))
    /\ (forall label,
           get [("B", Summarize.Num (Number.to_number "0.125")); ("3", Summarize.Num Number.one)]
             label = None ->
           get F label = None)
    /\ get F "__proto__" = None.
Proof.
  apply (@formatTotals_lookup
           [("B", Summarize.Num (Number.to_number "0.125")); ("3", Summarize.Num Number.one)]
           (Some 2%Z)).
  - repeat constructor; cbn [In List.map fst]; intuition discriminate.
  - reflexivity.
  - repeat constructor; eexists; reflexivity.
  - lia.
Defined.

Lemma literal_data_app {V} (D1 D2 : object V) :
  literal_data (D1 ++ D2) -> literal_data D1 /\ literal_data D2.
Proof.
  intros [Hd [Hk Hh]]. unfold distinct_keys in Hd. rewrite map_app in Hd.
  apply Forall_app in Hk as [K1 K2]. apply get_app_None in Hh as [G1 G2].
  split; (split; [|split; assumption]).
  - now apply NoDup_app_remove_r in Hd.
  - now apply NoDup_app_remove_l in Hd.
Qed.

(** X18. For an object made of the properties of [D1] followed by those of
    [D2], all with literal keys, each key once, rendering is rendering with
    [D1] and then rendering the result with [D2]. *)
Theorem render_in_two_steps :
  forall (T : str) (D1 D2 : object str) (raw : bool),
    literal_data (D1 ++ D2) ->
    Template.render T (D1 ++ D2) raw
    = (t <- Template.render T D1 raw ;; Template.render t D2 raw).
Proof.
  intros T D1 D2 raw H. destruct (literal_data_app _ _ H) as [H1 H2].
  rewrite render_literal by exact H. rewrite (render_literal T raw H1). cbn [bind].
  rewrite render_literal by exact H2. f_equal.
  destruct H as [_ [K _]], H1 as [_ [K1 _]], H2 as [_ [K2 _]].
  unfold Literal.render. rewrite !for_in_literal by assumption.
  apply fold_left_app.
Qed.

Lemma render_in_two_steps_witness :
  Template.render "{a}{b}" ([("a", "{b}")] ++ [("b", "X")]) true
  = (t <- Template.render "{a}{b}" [("a", "{b}")] true ;; Template.render t [("b", "X")] true).
Proof.
  apply render_in_two_steps.
  split; [|split; [repeat constructor|reflexivity]].
  repeat constructor; cbn [In]; intuition discriminate.
Defined.

(** ** The keys of the script

    The script itself renders with the keys [items], [key] and [value]
    only, so none of its calls depends on a pattern outside the embedding. *)

Lemma formatTotals_loop_modelled totals n (l : list (str * Summarize.total)) :
  forall acc, Summarize.formatTotals_loop totals n l acc <> Unmodelled.
Proof.
  induction l as [|[k t] l IH]; intros acc; [discriminate|].
  cbn [Summarize.formatTotals_loop]. unfold hasOwnProperty.
  destruct (get totals "hasOwnProperty"); [discriminate|]. cbn [bind].
  destruct (get totals k); [|apply IH].
  destruct t as [x|pieces]; cbn [Summarize.total_toFixed]; [|discriminate].
  unfold Number.toFixed. destruct (_ || _); [discriminate|]. cbn [bind]. apply IH.
Qed.

Lemma renderObject_modelled T (F : object str) raw :
  Template.renderObject T F raw <> Unmodelled.
Proof.
  destruct (get F "hasOwnProperty") as [v|] eqn:G.
  - unfold Template.renderObject.
    destruct (for_in F) as [|[k0 v0] l]; [discriminate|].
    cbn [Template.renderObject_loop]. unfold hasOwnProperty. rewrite G. discriminate.
  - rewrite renderObject_literal by exact G. discriminate.
Qed.

Lemma summary_markup_modelled totals : Summarize.summary_markup totals <> Unmodelled.
Proof.
  unfold Summarize.summary_markup, Summarize._formatTotals.
  pose proof (formatTotals_loop_modelled totals 2 (for_in totals) []) as H1.
  destruct (Summarize.formatTotals_loop totals 2 (for_in totals) []) as [F|e|];
    [|discriminate|contradiction].
  cbn [bind]. pose proof (renderObject_modelled Summarize.item_template F false) as H2.
  destruct (Template.renderObject Summarize.item_template F false) as [items|e|];
    [|discriminate|contradiction].
  cbn [bind]. rewrite render_literal; [discriminate|].
  split; [|split; [repeat constructor|reflexivity]].
  repeat constructor. intros [].
Qed.

Lemma aggregate_modelled rows d : fst (Summarize.aggregate rows d) <> Unmodelled.
Proof.
  rewrite aggregate_visit. generalize (@nil (str * Summarize.total)).
  induction (XPathResult.snapshot (QueryResult.result rows)) as [|x l IH]; intros t;
    [discriminate|].
  cbn [visit]. destruct (add_row_cases d x t) as [[t' E]|E]; rewrite E; cbn [and_then].
  - apply IH.
  - discriminate.
Qed.

(** Whatever the page, the script ends by returning or by throwing. *)
Lemma main_modelled d : fst (AdminHelper.main d) <> Unmodelled.
Proof.
  unfold AdminHelper.main, AdminHelper.init, AdminHelper._iterateRows.
  set (rows := Xpath.findAll AdminHelper.ADMIN_ROWS d).
  cbn [AdminHelper.dispatch AdminHelper.run AdminHelper.Highlight AdminHelper.Summarize].
  rewrite highlight_run. cbn [and_then].
  set (d1 := {| Dom.rows := _; Dom.elements := Dom.elements d |}).
  unfold Summarize.run.
  pose proof (aggregate_modelled rows d1) as H.
  destruct (Summarize.aggregate rows d1) as [[[]|e|] totals]; cbn [fst] in H;
    [|discriminate|contradiction].
  unfold Summarize._render.
  destruct (Dom.getElementById d1 Summarize.TARGET_OUTPUT); [|discriminate].
  destruct (Summarize._shouldRender totals); [|discriminate].
  pose proof (summary_markup_modelled totals) as H2.
  destruct (Summarize.summary_markup totals); [discriminate|discriminate|contradiction].
Qed.

(** ** Examples *)

Example render_doc_example :
  Template.render "<b>{name}</b> - {title}" [("name", "Rudy"); ("title", "Sysop")] false
  = Normal "<b>Rudy</b> - Sysop".
Proof. vm_compute. reflexivity. Qed.

Example renderObject_doc_example :
  Template.renderObject "<span><b>{key}</b> - {value}</span>"
    [("Rudy", "Sysop"); ("Charles", "DBA")] false
  = Normal "<span><b>Rudy</b> - Sysop</span><span><b>Charles</b> - DBA</span>".
Proof. vm_compute. reflexivity. Qed.

Example render_chain :
  Template.render "{a}" [("a", "{b}"); ("b", "X")] true = Normal "X".
Proof. vm_compute. reflexivity. Qed.

Example render_tick :
  Template.render "<li>{key}:" [("key", "$`")] false = Normal "<li><li>:".
Proof. vm_compute. reflexivity. Qed.

Example render_every_occurrence :
  Template.render Sample.greeting [("x", "1")] true = Normal "1-1-{y}".
Proof. vm_compute. reflexivity. Qed.

(** An empty alternative matches at every position where the alternatives
    before it do not. *)
Example render_empty_alternative :
  Template.render "a{b}c" [("||", "-")] true = Normal "-a--b-}-c-".
Proof. vm_compute. reflexivity. Qed.

Example render_outside_embedding :
  Template.render "(x)" [("(x)", "y")] true = Unmodelled.
Proof. vm_compute. reflexivity. Qed.

Example new_examples :
  List.map RegExp.new ["{2,5}x"; "a{2}"; "{2,5"; "{,5}"; "a|{3,}"]
  = [Throw SyntaxError; Unmodelled;
     Normal [List.map RegExp.Char "{2,5"]; Normal [List.map RegExp.Char "{,5}"];
     Throw SyntaxError].
Proof. vm_compute. reflexivity. Qed.

Example formatTotals_errors :
  Summarize._formatTotals [("a", Summarize.Num Number.one)] (Some 101%Z) = Throw RangeError
  /\ Summarize._formatTotals [("a", Summarize.Num Number.one)] (Some (-1)%Z) = Throw RangeError
  /\ Summarize._formatTotals
       [("a", Summarize.Num Number.one); ("hasOwnProperty", Summarize.Num Number.one)] None
     = Throw TypeError
  /\ Summarize._formatTotals [("__proto__", Summarize.Num Number.one)] None = Normal [].
Proof. repeat split; vm_compute; reflexivity. Qed.

Example escape_all : Template._escape ("a&b<c>" ++ [dquote] ++ "'/") = "a&amp;b&lt;c&gt;&quot;&#39;&#x2F;".
Proof. vm_compute. reflexivity. Qed.

Example for_in_order :
  map fst (for_in [("b", 1); ("10", 2); ("a", 3); ("2", 4); ("01", 5)]) = ["2"; "10"; "b"; "a"; "01"].
Proof. vm_compute. reflexivity. Qed.

Example to_number_examples :
  map Number.to_number ["1.5"; " 2.25 "; "0.75"; ""; "abc"; "1e3"; "0x10"; "-.5"; "1.5h"; "."; "Infinity"]
  = [S754_finite false 6755399441055744 (-52); S754_finite false 5066549580791808 (-51);
     S754_finite false 6755399441055744 (-53); S754_zero false; S754_nan;
     S754_finite false 8796093022208000 (-43); S754_finite false 4503599627370496 (-48);
     S754_finite true 4503599627370496 (-53); S754_nan; S754_nan; S754_infinity false].
Proof. vm_compute. reflexivity. Qed.

Example toFixed_examples :
  map (fun s => Number.toFixed (Number.to_number s) 2)
    ["1.5"; "2.25"; "0.125"; "-0.125"; "1e21"; "1180591620717411303424"; "1e23"; "x"; "-0.001"; "1.005"; "123.456"; "0"; "1e20";
     "-1e400"; "12345678901234567890123456789"; "0.1"]
  = map Normal
    ["1.50"; "2.25"; "0.13"; "-0.13"; "1e+21"; "1.1805916207174113e+21"; "1e+23"; "NaN"; "-0.00"; "1.00"; "123.46"; "0.00";
     "100000000000000000000.00"; "-Infinity"; "1.2345678901234568e+28"; "0.10"].
Proof. vm_compute. reflexivity. Qed.

Example main_sample :
  AdminHelper.main Sample.page
  = (Normal tt,
      {| Dom.rows :=
           [ {| Dom.classList := ["admin_helper_highlight"]; Dom.cells := Dom.cells (Sample.entry "A: x" "1.5") |};
             {| Dom.classList := ["odd"]; Dom.cells := [Sample.other_cell; Sample.notes "C: w"; Sample.hours "9"] |};
             {| Dom.classList := ["admin_helper_highlight"]; Dom.cells := Dom.cells (Sample.entry "B: y" "2.25") |};
             {| Dom.classList := ["admin_helper_highlight"]; Dom.cells := Dom.cells (Sample.entry "A: z" "0.75") |} ];
         Dom.elements :=
           [ Sample.header;
             {| Dom.id := "admin_helper";
                Dom.innerHTML :=
                  "<ul><li>A: <span class=" ++ [dquote] ++ "admin_helper_hours" ++ [dquote] ++ ">2.25</span>"
                  ++ "<li>B: <span class=" ++ [dquote] ++ "admin_helper_hours" ++ [dquote] ++ ">2.25</span></ul>" |};
             Sample.anchor ] |}).
Proof. vm_compute. reflexivity. Qed.
